(** * Offline Movie Manager: the record model and the catalog store

    A shallow embedding of [main.py]: the [Movie] dataclass with
    [Movie.from_dict], and the methods of [MovieManagerApp] that load, save,
    query and mutate the catalogue ([_load_movies], [_save_movies],
    [_filtered_movies], [toggle_flag], [delete_movie] and the [save] closure
    of [open_movie_form]); then the settings and themes ([_load_settings],
    [_save_settings], [_apply_theme], [toggle_theme], [save_key]), the
    start-up in [build], [open_trailer], the fields [open_movie_form]
    starts with, its [clear] closure, and the [fetch_tmdb] closure with the
    answer of the service as an input.  The widget tree
    ([refresh_movies], [_build_movie_card]) and the platform calls of
    [play_local] are left out.

    Python values are modelled as follows.
    - [str] is [string], a character standing for the code point of its
      number, so that the text has its code points below 256: [lower]
      folds what [str.lower] folds there, [strip] removes what
      [str.isspace] holds to be white space there, and [<] on text is the
      order of the code points.
    - [float] is IEEE binary64 as [spec_float]; [<], [==], [min] and [max]
      follow CPython, NaN included.
    - a parsed JSON document is a [json] tree, a JSON object being a finite
      map from text to values; a file is what [json.load] makes of it, and
      [json.dump] followed by [json.load] gives the document back.
    - an exception is the [Raise] of a [result].
    - objects live in a heap indexed by their identity; a list is an object
      holding identities, so that a list can be told from a copy of it and
      a record from an equal one.
    - [float] on text, [str] on values that are not text, and the clock are
      inputs: the first two form the class [Builtins], the time is an
      argument. *)

From Stdlib Require Import ZArith String Ascii List.
From Stdlib Require Import Floats.SpecFloat.
From stdpp Require Import gmap strings list fin_maps sorting pretty.

Local Open Scope Z_scope.
Local Open Scope string_scope.

(** ** Exceptions *)

Inductive exn := ValueError | TypeError | OverflowError | JSONDecodeError.

Inductive result (A : Type) :=
| Ok (a : A)
| Raise (e : exn).
Arguments Ok {A} a.
Arguments Raise {A} e.

Global Instance result_bind : MBind result := λ A B k r,
  match r with
  | Ok a => k a
  | Raise e => Raise e
  end.

Definition raises {A} (r : result A) : Prop :=
  match r with Ok _ => False | Raise _ => True end.

(** ** Floats *)

Abbreviation float := spec_float.

(** [float(n)] for a Python [int]: the nearest binary64, [OverflowError]
    when that is out of range. *)
Definition float_of_int (n : Z) : result float :=
  match binary_normalize 53 1024 n 0 false with
  | S754_infinity _ => Raise OverflowError
  | f => Ok f
  end.

Definition f0 : float := S754_zero false.
Definition f1 : float := S754_finite false 4503599627370496 (-52).
Definition f10 : float := S754_finite false 5629499534213120 (-49).
Definition f11 : float := S754_finite false 6192449487634432 (-49).

Definition float_lt (a b : float) : bool := SFltb a b.
Definition float_le (a b : float) : bool := SFleb a b.
Definition float_eq (a b : float) : bool := SFeqb a b.

(** [min(a, b)] keeps [a] unless [b < a]; [max(a, b)] keeps [a] unless
    [b > a]. *)
Definition py_min (a b : float) : float := if float_lt b a then b else a.
Definition py_max (a b : float) : float := if float_lt a b then b else a.

(** [bool(x)] for a float: [x != 0.0]. *)
Definition float_truthy (f : float) : bool :=
  match f with
  | S754_zero _ => false
  | _ => true
  end.

(** A rating inside [0.0, 10.0]. *)
Definition in_range (r : float) : bool := float_le f0 r && float_le r f10.

(** ** Text *)

(** [str.isspace] below code point 256: TAB..CR, FS..US, the space,
    NEL (U+0085) and the no-break space (U+00A0). *)
Definition is_space (c : ascii) : bool :=
  let n := nat_of_ascii c in
  ((9 <=? n) && (n <=? 13) || (28 <=? n) && (n <=? 32)
   || (n =? 133) || (n =? 160))%nat.

Fixpoint lstrip (s : string) : string :=
  match s with
  | String c s' => if is_space c then lstrip s' else s
  | EmptyString => EmptyString
  end.

Fixpoint rstrip (s : string) : string :=
  match s with
  | String c s' =>
      match rstrip s' with
      | EmptyString => if is_space c then EmptyString else String c EmptyString
      | t => String c t
      end
  | EmptyString => EmptyString
  end.

Definition strip (s : string) : string := rstrip (lstrip s).

(** [str.lower] below code point 256: [A-Z] and the capital letters
    U+00C0..U+00DE, the multiplication sign U+00D7 apart. *)
Definition lower_char (c : ascii) : ascii :=
  let n := nat_of_ascii c in
  if ((65 <=? n) && (n <=? 90)
      || (192 <=? n) && (n <=? 222) && negb (n =? 215))%nat
  then ascii_of_nat (n + 32) else c.

Fixpoint lower (s : string) : string :=
  match s with
  | String c s' => String (lower_char c) (lower s')
  | EmptyString => EmptyString
  end.

(** [sub in s] *)
Fixpoint str_in (sub s : string) : bool :=
  String.prefix sub s ||
  match s with
  | String _ s' => str_in sub s'
  | EmptyString => false
  end.

(** Text with no white space in front. *)
Definition no_lead (s : string) : Prop :=
  match s with
  | String c _ => is_space c = false
  | EmptyString => True
  end.

Definition str_truthy (s : string) : bool :=
  match s with
  | EmptyString => false
  | _ => true
  end.

Definition str_lt (a b : string) : bool := String.ltb a b.
Definition str_le (a b : string) : bool := String.leb a b.

(** [sub] occurs in [s]. *)
Definition substring (sub s : string) : Prop :=
  ∃ pre post, s = pre ++ sub ++ post.

(** ** JSON values *)

#[warnings="-register-all"]
Inductive json :=
| JNull
| JBool (b : bool)
| JInt (n : Z)
| JFloat (f : float)
| JStr (s : string)
| JList (l : list json)
| JDict (d : gmap string json).

Definition is_empty_dict (d : gmap string json) : bool :=
  match map_to_list d with
  | [] => true
  | _ => false
  end.

(** [bool(v)] *)
Definition truthy (v : json) : bool :=
  match v with
  | JNull => false
  | JBool b => b
  | JInt n => negb (n =? 0)%Z
  | JFloat f => float_truthy f
  | JStr s => str_truthy s
  | JList l => match l with [] => false | _ => true end
  | JDict d => negb (is_empty_dict d)
  end.

(** [a or b] *)
Definition py_or (a b : json) : json := if truthy a then a else b.

(** [d.get(k, default)] *)
Definition get (d : gmap string json) (k : string) (dflt : json) : json :=
  default dflt (d !! k).

(** What the interpreter supplies and the repository does not define:
    [float(s)] on text ([None] is [ValueError]) and the text [str(v)] gives
    for a value that is not itself text. *)
Class Builtins := {
  float_of_str : string → option float;
  repr : json → string;
}.

Section Coercions.
Context `{Builtins}.

(** [float(v)] *)
Definition to_float (v : json) : result float :=
  match v with
  | JNull => Raise TypeError
  | JBool b => Ok (if b then f1 else f0)
  | JInt n => float_of_int n
  | JFloat f => Ok f
  | JStr s =>
      match float_of_str s with
      | Some f => Ok f
      | None => Raise ValueError
      end
  | JList _ | JDict _ => Raise TypeError
  end.

(** [str(v)], where it returns: CPython 3.11 and later raise [ValueError]
    on an integer of more than 4300 digits, alone or inside a list or
    mapping.  [json.load] gives no such integer; the theorems that say
    what [from_dict] returns or raises on a payload of any origin take the
    values under its text keys [plain] (below). *)
Definition to_str (v : json) : string :=
  match v with
  | JStr s => s
  | _ => repr v
  end.
End Coercions.

(** ** The record model *)

Record Movie := {
  title : string;
  year : string;
  rating : float;
  poster_url : string;
  watched : bool;
  favorite : bool;
  watchlist : bool;
  trailer_url : string;
  local_file : string;
  notes : string;
  created_at : string;
}.

(** [__post_init__]; [now] is [datetime.utcnow().isoformat()]. *)
Definition __post_init__ (now : string) (m : Movie) : Movie :=
  if negb (str_truthy (created_at m)) then
    {| title := title m; year := year m; rating := rating m;
       poster_url := poster_url m; watched := watched m;
       favorite := favorite m; watchlist := watchlist m;
       trailer_url := trailer_url m; local_file := local_file m;
       notes := notes m; created_at := now |}
  else m.

(** [Movie(title=t)]: the declared defaults, then [__post_init__]. *)
Definition new_Movie (now : string) (t : string) : Movie :=
  __post_init__ now
    {| title := t; year := ""; rating := f0; poster_url := "";
       watched := false; favorite := false; watchlist := true;
       trailer_url := ""; local_file := ""; notes := ""; created_at := "" |}.

Section FromDict.
Context `{Builtins}.

Definition from_dict (now : string) (payload : gmap string json)
  : result Movie :=
  r ← to_float (py_or (get payload "rating" (JInt 0)) (JInt 0));
  Ok (__post_init__ now
    {| title := strip (to_str (get payload "title" (JStr "")));
       year := strip (to_str (get payload "year" (JStr "")));
       rating := r;
       poster_url := strip (to_str (get payload "poster_url" (JStr "")));
       watched := truthy (get payload "watched" (JBool false));
       favorite := truthy (get payload "favorite" (JBool false));
       watchlist := truthy (get payload "watchlist" (JBool true));
       trailer_url := strip (to_str (get payload "trailer_url" (JStr "")));
       local_file := strip (to_str (get payload "local_file" (JStr "")));
       notes := strip (to_str (get payload "notes" (JStr "")));
       created_at := strip (to_str (get payload "created_at" (JStr ""))) |}).
End FromDict.

(** [dataclasses.asdict] *)
Definition asdict (m : Movie) : gmap string json :=
  <["title" := JStr (title m)]>
  (<["year" := JStr (year m)]>
  (<["rating" := JFloat (rating m)]>
  (<["poster_url" := JStr (poster_url m)]>
  (<["watched" := JBool (watched m)]>
  (<["favorite" := JBool (favorite m)]>
  (<["watchlist" := JBool (watchlist m)]>
  (<["trailer_url" := JStr (trailer_url m)]>
  (<["local_file" := JStr (local_file m)]>
  (<["notes" := JStr (notes m)]>
  (<["created_at" := JStr (created_at m)]> ∅)))))))))).

(** ** Sorting

    [sorted(items, key=..., reverse=...)].  [list.sort] compares keys
    with [<] only; with [reverse=True] CPython reverses the list, sorts
    it, and reverses the result, so that ties keep their original order.

    [list_sort] is what CPython's [list.sort] does with fewer than 64
    items: it takes the run the list starts with ([count_run]), reversed
    when it descends, and puts the other items into it one by one, each at
    the place a binary search finds ([binarysort]).  On a longer list
    CPython sorts runs this way and merges them.  Where [<] orders the
    keys, as it does text and the floats other than NaN, every stable sort
    has one and the same result ([sort_unique] below), which is that of
    the insertion sort [sort]; with a NaN among the keys the result is the
    one of the algorithm. *)

Section Sorted.
Context {A K : Type} (lt : K → K → bool) (key : A → K).

(** The stable insertion sort the results are compared with. *)
Fixpoint insort (x : A) (l : list A) : list A :=
  match l with
  | [] => [x]
  | y :: l' => if lt (key y) (key x) then y :: insort x l' else x :: l
  end.

Definition sort (l : list A) : list A := foldr insort [] l.

(** The loop of [binarysort]: the place of [x] in [pre] between the
    indices [l] and [r]; the halving ends within [r - l] rounds. *)
Fixpoint bisect (rounds : nat) (x : A) (pre : list A) (l r : nat) : nat :=
  match rounds with
  | O => l
  | S rounds =>
      if (l <? r)%nat then
        let p := (l + (r - l) / 2)%nat in
        match pre !! p with
        | Some y =>
            if lt (key x) (key y) then bisect rounds x pre l p
            else bisect rounds x pre (S p) r
        | None => l
        end
      else l
  end.

Definition binary_insert (pre : list A) (x : A) : list A :=
  let i := bisect (length pre) x pre 0 (length pre) in
  (take i pre ++ x :: drop i pre)%list.

(** [count_run]: how many items the run at the head of the list has, and
    whether it descends.  A run descends when every item is below the one
    before it, and ascends when none is. *)
Fixpoint run_on (descending_ : bool) (prev : A) (l : list A) : nat :=
  match l with
  | [] => 0
  | y :: l' =>
      if Bool.eqb (lt (key y) (key prev)) descending_
      then S (run_on descending_ y l') else 0
  end.

Definition count_run (l : list A) : nat * bool :=
  match l with
  | [] => (0%nat, false)
  | [x] => (1%nat, false)
  | x :: y :: l' =>
      let descending_ := lt (key y) (key x) in
      (S (S (run_on descending_ y l')), descending_)
  end.

Definition list_sort (l : list A) : list A :=
  let '(n, descending_) := count_run l in
  let run := take n l in
  foldl binary_insert (if descending_ then reverse run else run) (drop n l).

Definition sorted (reverse_ : bool) (l : list A) : list A :=
  if reverse_ then reverse (list_sort (reverse l)) else list_sort l.

(** No key is below that of an earlier element, or of a later one. *)
Definition ascending (x y : A) : Prop := lt (key y) (key x) = false.
Definition descending (x y : A) : Prop := lt (key x) (key y) = false.

(** The key of [x] ties with [k]: neither is below the other. *)
Definition tie (k : K) (x : A) : bool :=
  negb (lt (key x) k) && negb (lt k (key x)).
End Sorted.

(** ** The catalog store *)

Abbreviation loc := nat.

(** What [json.load] finds in a file: a document, or text it rejects. *)
Inductive file :=
| JsonFile (doc : json)
| OtherFile.

Definition json_load (f : file) : result json :=
  match f with
  | JsonFile doc => Ok doc
  | OtherFile => Raise JSONDecodeError
  end.

(** The part of [MovieManagerApp] the catalogue depends on: the [Movie]
    objects and the list objects by identity, the list [self.movies] refers
    to, the data file and the disk, and the text of the three query
    widgets. *)
Record App := {
  heap : gmap loc Movie;
  lists : gmap loc (list loc);
  movies : loc;
  data_file : string;
  disk : gmap string file;
  search_input : string;
  filter_spinner : string;
  sort_spinner : string;
}.

Global Instance Movie_inhabited : Inhabited Movie :=
  populate {| title := ""; year := ""; rating := f0; poster_url := "";
              watched := false; favorite := false; watchlist := true;
              trailer_url := ""; local_file := ""; notes := "";
              created_at := "" |}.

Definition set_heap (h : gmap loc Movie) (st : App) : App :=
  {| heap := h; lists := lists st; movies := movies st;
     data_file := data_file st; disk := disk st;
     search_input := search_input st; filter_spinner := filter_spinner st;
     sort_spinner := sort_spinner st |}.

Definition set_lists (ls : gmap loc (list loc)) (st : App) : App :=
  {| heap := heap st; lists := ls; movies := movies st;
     data_file := data_file st; disk := disk st;
     search_input := search_input st; filter_spinner := filter_spinner st;
     sort_spinner := sort_spinner st |}.

Definition set_disk (d : gmap string file) (st : App) : App :=
  {| heap := heap st; lists := lists st; movies := movies st;
     data_file := data_file st; disk := d;
     search_input := search_input st; filter_spinner := filter_spinner st;
     sort_spinner := sort_spinner st |}.

(** The object behind a reference, and the elements of a list object. *)
Definition obj (st : App) (l : loc) : Movie := heap st !!! l.
Definition elems (st : App) (a : loc) : list loc := lists st !!! a.

(** The records of the collection, in order. *)
Definition records (st : App) : list Movie := obj st <$> elems st (movies st).

(** A new list object. *)
Definition new_list (l : list loc) (st : App) : App * loc :=
  let a := fresh (dom (lists st)) in
  (set_lists (<[a := l]> (lists st)) st, a).

(** A new [Movie] object. *)
Definition new_obj (m : Movie) (st : App) : App * loc :=
  let l := fresh (dom (heap st)) in
  (set_heap (<[l := m]> (heap st)) st, l).

(** [[m for m in items if p(m)]] *)
Definition comprehension (p : Movie → bool) (s : App * loc) : App * loc :=
  let '(st, items) := s in
  new_list (filter (λ l, p (obj st l)) (elems st items)) st.

(** [sorted(items, key=lambda m: k(m), reverse=r)] *)
Definition sorted_by {K} (lt : K → K → bool) (k : Movie → K) (r : bool)
    (s : App * loc) : App * loc :=
  let '(st, items) := s in
  new_list (sorted lt (λ l, k (obj st l)) r (elems st items)) st.

(** [m.year or "0"] *)
Definition year_key (m : Movie) : string :=
  if str_truthy (year m) then year m else "0".

Definition matches (search : string) (m : Movie) : bool :=
  str_in search (lower (title m)) || str_in search (lower (notes m)).

Definition _filtered_movies (st : App) : App * loc :=
  let search := lower (strip (search_input st)) in
  let filter_value := filter_spinner st in
  let sort_value := sort_spinner st in
  let items := (st, movies st) in
  let items :=
    if str_truthy search then comprehension (matches search) items
    else items in
  let items :=
    if (filter_value =? "Watched")%string then comprehension watched items
    else if (filter_value =? "Favorite")%string then
      comprehension favorite items
    else if (filter_value =? "Watchlist")%string then
      comprehension watchlist items
    else items in
  let items :=
    if (sort_value =? "Title")%string then
      sorted_by str_lt (λ m, lower (title m)) false items
    else if (sort_value =? "Year")%string then
      sorted_by str_lt year_key true items
    else if (sort_value =? "Rating")%string then
      sorted_by float_lt rating true items
    else items in
  items.

(** [json.dump([asdict(m) for m in self.movies], fh)], where the write
    succeeds: [os.makedirs] and [open] raise on a directory that cannot be
    made or written, and so on a data file without a directory part.
    What is stated of a call that writes is stated of a write that
    succeeds. *)
Definition _save_movies (st : App) : App :=
  set_disk
    (<[data_file st := JsonFile (JList ((λ m, JDict (asdict m)) <$> records st))]>
       (disk st)) st.

Section Load.
Context `{Builtins}.

(** [[Movie.from_dict(item) for item in data if isinstance(item, dict)]];
    [clock i] is the time at the [i]-th record built. *)
Fixpoint load_items (clock : nat → string) (i : nat) (data : list json)
  : result (list Movie) :=
  match data with
  | [] => Ok []
  | JDict item :: data' =>
      m ← from_dict (clock i) item;
      ms ← load_items clock (S i) data';
      Ok (m :: ms)
  | _ :: data' => load_items clock i data'
  end.

(** The records [_load_movies] returns, in order. *)
Definition _load_movies (clock : nat → string) (st : App) : list Movie :=
  match disk st !! data_file st with
  | None => []
  | Some fh =>
      let attempt :=
        data ← json_load fh;
        match data with
        | JList data => load_items clock 0 data
        | _ => Ok []
        end in
      match attempt with
      | Ok ms => ms
      | Raise _ => []
      end
  end.
End Load.

(** *** Flags *)

Definition getattr (m : Movie) (field : string) : option bool :=
  if (field =? "watched")%string then Some (watched m)
  else if (field =? "favorite")%string then Some (favorite m)
  else if (field =? "watchlist")%string then Some (watchlist m)
  else None.

Definition set_watched (b : bool) (m : Movie) : Movie :=
  {| title := title m; year := year m; rating := rating m;
     poster_url := poster_url m; watched := b; favorite := favorite m;
     watchlist := watchlist m; trailer_url := trailer_url m;
     local_file := local_file m; notes := notes m;
     created_at := created_at m |}.

Definition set_favorite (b : bool) (m : Movie) : Movie :=
  {| title := title m; year := year m; rating := rating m;
     poster_url := poster_url m; watched := watched m; favorite := b;
     watchlist := watchlist m; trailer_url := trailer_url m;
     local_file := local_file m; notes := notes m;
     created_at := created_at m |}.

Definition set_watchlist (b : bool) (m : Movie) : Movie :=
  {| title := title m; year := year m; rating := rating m;
     poster_url := poster_url m; watched := watched m;
     favorite := favorite m; watchlist := b; trailer_url := trailer_url m;
     local_file := local_file m; notes := notes m;
     created_at := created_at m |}.

Definition setattr (m : Movie) (field : string) (b : bool) : Movie :=
  if (field =? "watched")%string then set_watched b m
  else if (field =? "favorite")%string then set_favorite b m
  else if (field =? "watchlist")%string then set_watchlist b m
  else m.

(** The two assignments of [toggle_flag] on the record itself. *)
Definition toggled (m : Movie) (field : string) : option Movie :=
  b ← getattr m field;
  let m := setattr m field (negb b) in
  Some (if (field =? "watched")%string && watched m
        then set_watchlist false m else m).

(** [toggle_flag(self, movie, field)] for the boolean fields; [None] when
    [field] names something else, which no caller passes.  Here and below
    [refresh_movies] is left out: it rebuilds the widgets from the list
    [_filtered_movies] returns and drops that list. *)
Definition toggle_flag (st : App) (movie : loc) (field : string)
  : option App :=
  m ← toggled (obj st movie) field;
  Some (_save_movies (set_heap (<[movie := m]> (heap st)) st)).

(** *** Delete *)

(** The dataclass [__eq__]: the tuples of fields compared with [==].  A
    NaN rating is unequal to any rating; that Python also takes two
    ratings for equal when they are one and the same NaN object is left
    out, floats having no identity here. *)
Definition Movie_eq (a b : Movie) : bool :=
  (title a =? title b)%string && (year a =? year b)%string &&
  float_eq (rating a) (rating b) &&
  (poster_url a =? poster_url b)%string &&
  Bool.eqb (watched a) (watched b) && Bool.eqb (favorite a) (favorite b) &&
  Bool.eqb (watchlist a) (watchlist b) &&
  (trailer_url a =? trailer_url b)%string &&
  (local_file a =? local_file b)%string && (notes a =? notes b)%string &&
  (created_at a =? created_at b)%string.

(** How [in] and [list.remove] compare an element with [movie]: the same
    object, or an equal one. *)
Definition same (st : App) (movie e : loc) : bool :=
  (e =? movie)%nat || Movie_eq (obj st e) (obj st movie).

(** [l.remove(movie)]: drops the first match, [ValueError] without one. *)
Fixpoint list_remove (p : loc → bool) (l : list loc)
  : result (list loc) :=
  match l with
  | [] => Raise ValueError
  | e :: l' => if p e then Ok l' else l'' ← list_remove p l'; Ok (e :: l'')
  end.

Definition delete_movie (st : App) (movie : loc) : result App :=
  if existsb (same st movie) (elems st (movies st)) then
    l ← list_remove (same st movie) (elems st (movies st));
    Ok (_save_movies (set_lists (<[movies st := l]> (lists st)) st))
  else Ok st.

(** *** The movie form *)

(** The text inputs and check boxes when Save is pressed. *)
Record Form := {
  title_text : string;
  year_text : string;
  rating_text : string;
  poster_url_text : string;
  trailer_url_text : string;
  local_file_text : string;
  notes_text : string;
  watched_active : bool;
  favorite_active : bool;
  watchlist_active : bool;
}.

Section Save.
Context `{Builtins}.

(** The [try] block of [save]. *)
Definition parse_rating (text : string) : result float :=
  match to_float (py_or (JStr (strip text)) (JInt 0)) with
  | Raise ValueError => Ok f0
  | r => r
  end.

(** The assignments to [target]. *)
Definition assign (w : Form) (title_ : string) (rating_ : float)
    (target : Movie) : Movie :=
  {| title := title_;
     year := strip (year_text w);
     rating := py_max f0 (py_min f10 rating_);
     poster_url := strip (poster_url_text w);
     watched := watched_active w;
     favorite := favorite_active w;
     watchlist := watchlist_active w;
     trailer_url := strip (trailer_url_text w);
     local_file := strip (local_file_text w);
     notes := strip (notes_text w);
     created_at := created_at target |}.

(** [save] inside [open_movie_form(self, movie)]; [movie] is [None] when
    adding, and [now] is the time a new record would be built at. *)
Definition save (st : App) (movie : option loc) (now : string) (w : Form)
  : result App :=
  let title_ := strip (title_text w) in
  if negb (str_truthy title_) then Ok st
  else
    rating_ ← parse_rating (rating_text w);
    let editing := bool_decide (is_Some movie) in
    let '(st, target) :=
      match movie with
      | Some movie => (st, movie)
      | None => new_obj (new_Movie now title_) st
      end in
    let st :=
      set_heap (<[target := assign w title_ rating_ (obj st target)]>
                  (heap st)) st in
    let st :=
      if negb editing then
        set_lists (<[movies st := (elems st (movies st) ++ [target])%list]>
                     (lists st)) st
      else st in
    Ok (_save_movies st).
End Save.

(** [clear] inside [open_movie_form]: every text input emptied, the check
    boxes back to their defaults. *)
Definition clear (w : Form) : Form :=
  {| title_text := ""; year_text := ""; rating_text := "";
     poster_url_text := ""; trailer_url_text := ""; local_file_text := "";
     notes_text := ""; watched_active := false; favorite_active := false;
     watchlist_active := true |}.

(** *** Settings, themes and start-up *)

(** A colour component written as a decimal with two places. *)
Definition hundredths (n : Z) : json :=
  JFloat (SFdiv 53 1024 (binary_normalize 53 1024 n 0 false)
            (binary_normalize 53 1024 100 0 false)).

(** The colour lists of the application. *)
Record Theme := {
  theme_bg : list json;
  theme_card : list json;
  theme_text : list json;
  theme_primary : list json;
  theme_button : list json;
  theme_button_text : list json;
}.

(** The application with what its settings need: the settings file, the
    API key, the mode and the colours. *)
Record Session := {
  app : App;
  settings_file : string;
  tmdb_api_key : string;
  dark_mode : bool;
  theme : Theme;
}.

Definition set_app (a : App) (s : Session) : Session :=
  {| app := a; settings_file := settings_file s;
     tmdb_api_key := tmdb_api_key s; dark_mode := dark_mode s;
     theme := theme s |}.

Definition set_tmdb_api_key (k : string) (s : Session) : Session :=
  {| app := app s; settings_file := settings_file s; tmdb_api_key := k;
     dark_mode := dark_mode s; theme := theme s |}.

Definition set_dark_mode (b : bool) (s : Session) : Session :=
  {| app := app s; settings_file := settings_file s;
     tmdb_api_key := tmdb_api_key s; dark_mode := b; theme := theme s |}.

Definition set_theme (t : Theme) (s : Session) : Session :=
  {| app := app s; settings_file := settings_file s;
     tmdb_api_key := tmdb_api_key s; dark_mode := dark_mode s; theme := t |}.

Definition _apply_theme (s : Session) : Session :=
  if dark_mode s then
    set_theme
      {| theme_bg := [hundredths 8; hundredths 9; hundredths 11; JInt 1];
         theme_card := [hundredths 13; hundredths 14; hundredths 18; JInt 1];
         theme_text := [hundredths 92; hundredths 92; hundredths 95; JInt 1];
         theme_primary :=
           [hundredths 22; hundredths 53; hundredths 98; JInt 1];
         theme_button := [hundredths 22; hundredths 24; hundredths 31; JInt 1];
         theme_button_text := theme_button_text (theme s) |} s
  else
    set_theme
      {| theme_bg := [hundredths 95; hundredths 96; hundredths 98; JInt 1];
         theme_card := [JInt 1; JInt 1; JInt 1; JInt 1];
         theme_text := [hundredths 12; hundredths 14; hundredths 18; JInt 1];
         theme_primary :=
           [hundredths 19; hundredths 46; hundredths 85; JInt 1];
         theme_button := [hundredths 75; hundredths 79; hundredths 87; JInt 1];
         theme_button_text := theme_button_text (theme s) |} s.

(** [json.dump({"dark_mode": ..., "tmdb_api_key": ...}, fh)]; the write is
    taken to succeed. *)
Definition _save_settings (s : Session) : Session :=
  set_app
    (set_disk
       (<[settings_file s :=
            JsonFile (JDict (<["dark_mode" := JBool (dark_mode s)]>
                              {[ "tmdb_api_key" := JStr (tmdb_api_key s) ]}))]>
          (disk (app s))) (app s)) s.

Section Settings.
Context `{Builtins}.

(** [data.get] exists on a mapping only: for any other document the
    [AttributeError] is caught like the errors of [json.load]. *)
Definition _load_settings (s : Session) : Session :=
  match disk (app s) !! settings_file s with
  | None => s
  | Some fh =>
      match json_load fh with
      | Ok (JDict data) =>
          let s := set_dark_mode (truthy (get data "dark_mode" (JBool true))) s in
          if negb (str_truthy (tmdb_api_key s)) then
            set_tmdb_api_key
              (strip (to_str (get data "tmdb_api_key" (JStr "")))) s
          else s
      | _ => s
      end
  end.
End Settings.

Definition toggle_theme (s : Session) : Session :=
  _save_settings (_apply_theme (set_dark_mode (negb (dark_mode s)) s)).

(** [save_key] inside [open_api_key_popup]; [text] is the input's text. *)
Definition save_key (text : string) (s : Session) : Session :=
  _save_settings (set_tmdb_api_key (strip text) s).

(** [os.path.join(directory, name)] for a relative [name], on POSIX. *)
Fixpoint ends_with_slash (s : string) : bool :=
  match s with
  | EmptyString => false
  | String c EmptyString => Ascii.eqb c "/"
  | String _ s' => ends_with_slash s'
  end.

(** [os.path.join(directory, name)] on POSIX paths, for a [name] that
    does not start with a slash. *)
Definition join (directory name : string) : string :=
  if negb (str_truthy directory) || ends_with_slash directory
  then directory ++ name
  else directory ++ "/" ++ name.

Definition set_movies (a : loc) (st : App) : App :=
  {| heap := heap st; lists := lists st; movies := a;
     data_file := data_file st; disk := disk st;
     search_input := search_input st; filter_spinner := filter_spinner st;
     sort_spinner := sort_spinner st |}.

(** New objects for the records of a list, in order. *)
Fixpoint new_objs (ms : list Movie) (st : App) : App * list loc :=
  match ms with
  | [] => (st, [])
  | m :: ms =>
      let '(st, l) := new_obj m st in
      let '(st, ls) := new_objs ms st in
      (st, l :: ls)
  end.

Section Build.
Context `{Builtins}.

(** [build], in a new process on the disk [d]: [user_data_dir] is the
    directory Kivy gives the application, [env_key] the value of
    [TMDB_API_KEY] in the environment (empty when unset).  The attributes
    start at their class defaults and the widgets at the text of the KV
    rules. *)
Definition build (user_data_dir env_key : string) (clock : nat → string)
    (d : gmap string file) : Session :=
  let white := [JInt 1; JInt 1; JInt 1; JInt 1] in
  let a :=
    {| heap := ∅; lists := ∅; movies := 0%nat;
       data_file := join user_data_dir "movies.json"; disk := d;
       search_input := ""; filter_spinner := "All"; sort_spinner := "Title" |} in
  let '(a, empty) := new_list [] a in
  let a := set_movies empty a in
  let s :=
    {| app := a; settings_file := join user_data_dir "settings.json";
       tmdb_api_key := strip env_key; dark_mode := true;
       theme :=
         {| theme_bg := [hundredths 8; hundredths 9; hundredths 11; JInt 1];
            theme_card :=
              [hundredths 13; hundredths 14; hundredths 18; JInt 1];
            theme_text :=
              [hundredths 92; hundredths 92; hundredths 95; JInt 1];
            theme_primary :=
              [hundredths 22; hundredths 53; hundredths 98; JInt 1];
            theme_button :=
              [hundredths 22; hundredths 24; hundredths 31; JInt 1];
            theme_button_text := white |} |} in
  let s := _load_settings s in
  let s := _apply_theme s in
  let '(a, ls) := new_objs (_load_movies clock (app s)) (app s) in
  let '(a, loaded) := new_list ls a in
  set_app (set_movies loaded a) s.
End Build.

(** *** Trailers *)

(** The characters [quote] never escapes: letters, digits and [_.-~]. *)
Definition always_safe (c : ascii) : bool :=
  let n := nat_of_ascii c in
  ((65 <=? n) && (n <=? 90) || (97 <=? n) && (n <=? 122)
   || (48 <=? n) && (n <=? 57)
   || (n =? 95) || (n =? 46) || (n =? 45) || (n =? 126))%nat.

Definition hex_digit (n : nat) : ascii :=
  ascii_of_nat (if (n <? 10)%nat then 48 + n else 55 + n).

(** ["%{:02X}"] of a byte. *)
Definition percent (byte : nat) : string :=
  String "%" (String (hex_digit (byte / 16))
                (String (hex_digit (byte mod 16)) EmptyString)).

(** The UTF-8 bytes of a character below code point 256. *)
Definition utf8 (c : ascii) : list nat :=
  let n := nat_of_ascii c in
  if (n <? 128)%nat then [n] else [192 + n / 64; 128 + n mod 64]%nat.

Definition quote_char (c : ascii) : string :=
  if always_safe c then String c EmptyString
  else if Ascii.eqb c " " then "+"
  else String.concat "" (percent <$> utf8 c).

(** [urllib.parse.quote_plus(s)] *)
Fixpoint quote_plus (s : string) : string :=
  match s with
  | EmptyString => EmptyString
  | String c s' => quote_char c ++ quote_plus s'
  end.

(** The search address built from a title, in [open_trailer] and in
    [apply]. *)
Definition trailer_search (title_ : string) : string :=
  "https://www.youtube.com/results?search_query="
  ++ quote_plus (title_ ++ " official trailer").


(** *** Opening the movie form *)

Section OpenForm.
Context `{Builtins}.

(** The text inputs and check boxes [open_movie_form(self, movie)] starts
    with; [now] is the time [Movie(title="")] would be built at. *)
Definition open_movie_form (movie : option Movie) (now : string) : Form :=
  let model := default (new_Movie now "") movie in
  {| title_text := title model;
     year_text := year model;
     rating_text := to_str (py_or (JFloat (rating model)) (JStr ""));
     poster_url_text := poster_url model;
     trailer_url_text := trailer_url model;
     local_file_text := local_file model;
     notes_text := notes model;
     watched_active := watched model;
     favorite_active := favorite model;
     watchlist_active := watchlist model |}.
End OpenForm.

(** *** The TMDB lookup *)

(** What [worker] schedules for the user-interface thread: the status
    line "No TMDB match found.", the call of [apply] with the values
    found, or the status line of an error. *)
Inductive Scheduled :=
| NoMatch
| Apply (movie_year : string) (movie_rating : float) (poster_url_ : string)
| Failed.

Section Tmdb.
Context `{Builtins}.
(** [f"{movie_rating:.1f}"], supplied by the interpreter. *)
Variable format_1f : float → string.

(** The guards of [fetch_tmdb] and the parameters of the request:
    [None] when no request is made. *)
Definition request (api_key : string) (w : Form)
  : option (string * list (string * string)) :=
  let title_ := strip (title_text w) in
  let year_ := strip (year_text w) in
  if negb (str_truthy title_) then None
  else if negb (str_truthy api_key) then None
  else
    let params := [("api_key", api_key); ("query", title_)] in
    let params :=
      if str_truthy year_ then
        (params ++ [("primary_release_year", year_)])%list
      else params in
    Some (title_, params).

(** The [try] block of [worker] after the request; [response] is what
    [resp.json()] returns, [None] when the request, the status check or
    the decoding raises. *)
Definition worker (response : option json) : Scheduled :=
  match response with
  | Some (JDict body) =>
      let results := get body "results" (JList []) in
      if negb (truthy results) then NoMatch
      else
        match results with
        | JList (JDict best :: _) =>
            let poster_path :=
              py_or (get best "poster_path" JNull) (JStr "") in
            let poster_url_ :=
              if truthy poster_path then
                "https://image.tmdb.org/t/p/w500" ++ to_str poster_path
              else "" in
            let release_date := to_str (get best "release_date" (JStr "")) in
            let movie_year :=
              if str_truthy release_date then String.substring 0 4 release_date
              else "" in
            match to_float (py_or (get best "vote_average" JNull) (JInt 0)) with
            | Ok movie_rating => Apply movie_year movie_rating poster_url_
            | Raise _ => Failed
            end
        | _ => Failed
        end
  | _ => Failed
  end.

(** [apply], run on the form as it is by then; [title_] is the title
    [fetch_tmdb] read when the button was pressed. *)
Definition apply (title_ movie_year : string) (movie_rating : float)
    (poster_url_ : string) (w : Form) : Form :=
  {| title_text := title_text w;
     year_text := if str_truthy movie_year then movie_year else year_text w;
     rating_text :=
       if float_truthy movie_rating then format_1f movie_rating
       else rating_text w;
     poster_url_text :=
       if str_truthy poster_url_ then poster_url_ else poster_url_text w;
     trailer_url_text :=
       if negb (str_truthy (strip (trailer_url_text w))) then
         trailer_search title_
       else trailer_url_text w;
     local_file_text := local_file_text w;
     notes_text := notes_text w;
     watched_active := watched_active w;
     favorite_active := favorite_active w;
     watchlist_active := watchlist_active w |}.

(** [fetch_tmdb] with its worker thread run to the end: the button is
    pressed on the form [w], the service answers the request with
    [respond], and the form is [later] when the scheduled call runs. *)
Definition fetch_tmdb (api_key : string) (w : Form)
    (respond : list (string * string) → option json) (later : Form) : Form :=
  match request api_key w with
  | None => later
  | Some (title_, params) =>
      match worker (respond params) with
      | Apply movie_year movie_rating poster_url_ =>
          apply title_ movie_year movie_rating poster_url_ later
      | NoMatch | Failed => later
      end
  end.
End Tmdb.

(** ** Notions the properties are stated with *)

(** The form after [t] is typed into its title input. *)
Definition typed_title (t : string) (w : Form) : Form :=
  {| title_text := t; year_text := year_text w;
     rating_text := rating_text w; poster_url_text := poster_url_text w;
     trailer_url_text := trailer_url_text w;
     local_file_text := local_file_text w; notes_text := notes_text w;
     watched_active := watched_active w;
     favorite_active := favorite_active w;
     watchlist_active := watchlist_active w |}.

(** The object a settings file holds, if it holds one. *)
Definition settings_of (fh : option file) : option (gmap string json) :=
  match fh with
  | Some (JsonFile (JDict data)) => Some data
  | _ => None
  end.





(** Text [strip] leaves alone. *)
Definition trimmed (s : string) : Prop := strip s = s.

(** A record whose text carries no surrounding white space, whose
    [created_at] is set, and whose rating is not the negative zero. *)
Record tidy (m : Movie) : Prop := {
  tidy_title : trimmed (title m);
  tidy_year : trimmed (year m);
  tidy_poster_url : trimmed (poster_url m);
  tidy_trailer_url : trimmed (trailer_url m);
  tidy_local_file : trimmed (local_file m);
  tidy_notes : trimmed (notes m);
  tidy_created_at : trimmed (created_at m);
  tidy_created : created_at m ≠ "";
  tidy_rating : rating m ≠ S754_zero true;
}.


(** [str(v)] is known not to raise: [v] is null, a boolean, a float, text,
    or an integer of at most 4300 digits, the most CPython 3.11 turns into
    text; and the values a payload holds under the keys [from_dict] reads
    as text are such. *)
Definition plain (v : json) : bool :=
  match v with
  | JInt n => (Z.abs n <? 10 ^ 4300)%Z
  | JList _ | JDict _ => false
  | _ => true
  end.

Definition text_keys : list string :=
  ["title"; "year"; "poster_url"; "trailer_url"; "local_file"; "notes";
   "created_at"].

Definition plain_texts (payload : gmap string json) : bool :=
  forallb (λ k, from_option plain true (payload !! k)) text_keys.

(** What a record becomes when it is written and read back at the time
    [now]: text stripped, a zero rating made the positive zero, an empty
    [created_at] stamped. *)
Definition reloaded (now : string) (m : Movie) : Movie :=
  {| title := strip (title m);
     year := strip (year m);
     rating := if float_truthy (rating m) then rating m else f0;
     poster_url := strip (poster_url m);
     watched := watched m;
     favorite := favorite m;
     watchlist := watchlist m;
     trailer_url := strip (trailer_url m);
     local_file := strip (local_file m);
     notes := strip (notes m);
     created_at :=
       if str_truthy (strip (created_at m)) then strip (created_at m)
       else now |}.

(** The mappings among the elements of a JSON array, in order. *)
Definition dicts (data : list json) : list (gmap string json) :=
  omap (λ v, match v with JDict d => Some d | _ => None end) data.

(** A record passes the search text and the filter mode of the widgets. *)
Definition flag_ok (filter_value : string) (m : Movie) : bool :=
  if (filter_value =? "Watched")%string then watched m
  else if (filter_value =? "Favorite")%string then favorite m
  else if (filter_value =? "Watchlist")%string then watchlist m
  else true.

Definition passes (st : App) (m : Movie) : bool :=
  matches (lower (strip (search_input st))) m && flag_ok (filter_spinner st) m.

(** The order the sort mode puts a list of records in. *)
Definition arranged (st : App) (l : list loc) : list loc :=
  if (sort_spinner st =? "Title")%string then
    sorted str_lt (λ x, lower (title (obj st x))) false l
  else if (sort_spinner st =? "Year")%string then
    sorted str_lt (λ x, year_key (obj st x)) true l
  else if (sort_spinner st =? "Rating")%string then
    sorted float_lt (λ x, rating (obj st x)) true l
  else l.

(** Two records tie under the sort mode: their keys compare equal. *)
Definition same_key (sort_value : string) (a b : Movie) : bool :=
  if (sort_value =? "Title")%string then
    (lower (title a) =? lower (title b))%string
  else if (sort_value =? "Year")%string then (year_key a =? year_key b)%string
  else if (sort_value =? "Rating")%string then float_eq (rating a) (rating b)
  else true.

(** [st'] is [st] with more list objects: every other component, and every
    list object of [st], is as it was. *)
Definition only_new_lists (st st' : App) : Prop :=
  set_lists (lists st') st = st' ∧ lists st ⊆ lists st'.

(** [s] is a store grown from [st] together with a list object holding
    [l]. *)
Definition holds (st : App) (l : list loc) (s : App * loc) : Prop :=
  only_new_lists st s.1 ∧ lists s.1 !! s.2 = Some l.

(** ** A runtime to run the model on

    [float] here reads signed decimal integers and nothing else, and [repr]
    knows [None], the booleans and the integers.  The theorems below hold
    for every [Builtins]; this one only serves to evaluate the model on
    concrete inputs. *)

Fixpoint read_digits (s : string) (acc : Z) : option Z :=
  match s with
  | EmptyString => Some acc
  | String c s' =>
      let n := Z.of_nat (nat_of_ascii c) in
      if ((48 <=? n) && (n <=? 57))%Z then read_digits s' (10 * acc + (n - 48))
      else None
  end.

Definition read_float (s : string) : option float :=
  match strip s with
  | EmptyString | String "-" EmptyString | String "+" EmptyString => None
  | String "-" s' =>
      n ← read_digits s' 0; Some (SFopp (binary_normalize 53 1024 n 0 false))
  | String "+" s' => n ← read_digits s' 0; Some (binary_normalize 53 1024 n 0 false)
  | s' => n ← read_digits s' 0; Some (binary_normalize 53 1024 n 0 false)
  end.

Definition integers_only : Builtins := {|
  float_of_str := read_float;
  repr v :=
    match v with
    | JNull => "None"
    | JBool true => "True"
    | JBool false => "False"
    | JInt n => pretty n
    | _ => "..."
    end;
|}.


(** A second runtime: [str] prints a float that is a whole number below
    [2^53] as Python does, digits followed by [.0], and [float] reads that
    form as well. *)
Definition whole (f : float) : option Z :=
  match f with
  | S754_finite s m e =>
      if ((e <=? 0) && (Z.pos m mod 2 ^ (- e) =? 0))%Z then
        Some ((if s then -1 else 1) * (Z.pos m / 2 ^ (- e)))%Z
      else None
  | _ => None
  end.

Definition repr_float (f : float) : string :=
  match f with
  | S754_zero false => "0.0"
  | S754_zero true => "-0.0"
  | S754_infinity false => "inf"
  | S754_infinity true => "-inf"
  | S754_nan => "nan"
  | _ => match whole f with Some n => pretty n ++ ".0" | None => "..." end
  end.



(** ** Sample data *)

Definition sample (t y n c : string) (r : float) : Movie :=
  {| title := t; year := y; rating := r; poster_url := ""; watched := false;
     favorite := false; watchlist := true; trailer_url := "";
     local_file := ""; notes := n; created_at := c |}.

(** A store holding the records [ms] as the objects [1], [2], ... with
    [self.movies] the list object [0]. *)
Definition store (ms : list Movie) (search filter_ sort_ : string) : App :=
  {| heap := list_to_map (zip (seq 1 (length ms)) ms);
     lists := {[ 0%nat := seq 1 (length ms) ]};
     movies := 0%nat;
     data_file := "/data/movies.json";
     disk := ∅;
     search_input := search;
     filter_spinner := filter_;
     sort_spinner := sort_ |}.

Definition on_disk (doc : file) : App :=
  set_disk {[ "/data/movies.json" := doc ]} (store [] "" "All" "Title").

Definition noon : string := "2024-01-01T12:00:00".

Definition f5 : float := S754_finite false 5629499534213120 (-50).
Definition f9 : float := S754_finite false 5066549580791808 (-49).

(** The two records of the worked example. *)
Definition zeta : Movie := sample "Zeta" "2001" "" noon f5.
Definition alpha : Movie := sample "alpha" "1999" "" noon f9.

(** A record already watched. *)
Definition seen : Movie := set_watchlist false (set_watched true zeta).

(** A form with the watched and the watchlist boxes both ticked. *)
Definition both_ticked : Form :=
  {| title_text := "Zeta"; year_text := "2001"; rating_text := "5";
     poster_url_text := ""; trailer_url_text := ""; local_file_text := "";
     notes_text := ""; watched_active := true; favorite_active := false;
     watchlist_active := true |}.

(** A JSON array of two mappings, the second with a list as its rating. *)
Definition two_mappings : list json :=
  [JDict {[ "title" := JStr "A" ]};
   JDict (<["rating" := JList [JInt 1]]> {[ "title" := JStr "B" ]})].

(** A JSON array with a mapping between two other elements. *)
Definition mixed : list json :=
  [JStr "x"; JDict (<["created_at" := JStr noon]> {[ "title" := JStr "A" ]});
   JInt 3].

(** A payload with a padded title and nothing else, the record it gives,
    a payload with a time stamp, and one with a list as its rating. *)
Definition bare : gmap string json := {[ "title" := JStr " Heat " ]}.

Definition heat : Movie := sample "Heat" "" "" noon f0.

Definition stamped : gmap string json :=
  <["created_at" := JStr noon]> {[ "title" := JStr "A" ]}.

Definition listed : gmap string json :=
  <["rating" := JList [JInt 1]]> {[ "title" := JStr "B" ]}.

(** The form filled in for a new movie, the rating above the scale. *)
Definition new_heat : Form :=
  {| title_text := " Heat "; year_text := "1995"; rating_text := "11";
     poster_url_text := ""; trailer_url_text := ""; local_file_text := "";
     notes_text := ""; watched_active := false; favorite_active := false;
     watchlist_active := true |}.

(** The same form with a trailer address typed in. *)
Definition with_trailer : Form :=
  {| title_text := " Heat "; year_text := "1995"; rating_text := "11";
     poster_url_text := ""; trailer_url_text := "https://youtu.be/x";
     local_file_text := ""; notes_text := ""; watched_active := false;
     favorite_active := false; watchlist_active := true |}.

(** The application started in the directory [/data] on the disk [d],
    with no key in the environment, and a store of that directory holding
    the records [ms]. *)
Definition started (d : gmap string file) : Session :=
  build (H := integers_only) "/data" "" (λ _, noon) d.

Definition installed (ms : list Movie) : App :=
  store ms "" "All" "Title".

(** A settings file choosing the light mode, with a padded key. *)
Definition light_settings : file :=
  JsonFile (JDict (<["dark_mode" := JBool false]>
                     {[ "tmdb_api_key" := JStr " k2 " ]})).

(** Two answers of the service: a match, and one whose vote is text that
    is no number. *)
Definition a_match : json :=
  JDict {[ "results" :=
    JList [JDict (<["release_date" := JStr "1995-12-15"]>
                  (<["poster_path" := JStr "/heat.jpg"]>
                   {[ "vote_average" := JInt 8 ]}))] ]}.

Definition a_bad_vote : json :=
  JDict {[ "results" := JList [JDict {[ "vote_average" := JStr "abc" ]}] ]}.



(** Seven records with the ratings 1, 1, NaN, 1, 1, 1 and 2. *)
Definition f2 : float := S754_finite false 4503599627370496 (-51).

Definition seven : list Movie :=
  [sample "a" "" "" noon f1; sample "b" "" "" noon f1;
   sample "c" "" "" noon S754_nan; sample "d" "" "" noon f1;
   sample "e" "" "" noon f1; sample "f" "" "" noon f1;
   sample "g" "" "" noon f2].

(** Text beyond ASCII: "Éa" (E acute is U+00C9), "é" (U+00E9), and "x"
    followed by a no-break space (U+00A0). *)
Definition capital_e_acute_a : string := String (ascii_of_nat 201) "a".
Definition e_acute : string := String (ascii_of_nat 233) "".
Definition x_nbsp : string := String "x" (String (ascii_of_nat 160) "").
(** * Properties *)

(** ** Floats *)

Lemma float_lt_le a b : float_lt a b = true → float_le a b = true.
Proof.
  unfold float_lt, float_le, SFltb, SFleb.
  by destruct (SFcompare a b) as [[]|].
Qed.

Lemma float_eq_compare a b : float_eq a b = true ↔ SFcompare a b = Some Eq.
Proof.
  unfold float_eq, SFeqb. destruct (SFcompare a b) as [[]|]; naive_solver.
Qed.

(** Two floats that both equal a third are not ordered by [<]. *)
Lemma float_eq_not_lt a b k :
  float_eq a k = true → float_eq b k = true → float_lt a b = false.
Proof.
  rewrite !float_eq_compare. unfold float_lt, SFltb.
  destruct a as [sa|sa| |sa ma ea], k as [sk|sk| |sk mk ek],
    b as [sb|sb| |sb mb eb]; simpl; try done;
    repeat match goal with s : bool |- _ => destruct s end; simpl; try done.
  all: intros Ha Hb.
  all: change (PosDef.Pos.compare_cont Eq) with Pos.compare in *.
  all: destruct (ea ?= ek)%Z eqn:Ea; try done;
       destruct (eb ?= ek)%Z eqn:Eb; try done.
  all: apply Z.compare_eq in Ea, Eb; subst.
  all: rewrite Z.compare_refl.
  all: destruct (ma ?= mk)%positive eqn:Ma; try done;
       destruct (mb ?= mk)%positive eqn:Mb; try done.
  all: apply Pos.compare_eq in Ma, Mb; subst.
  all: by rewrite Pos.compare_refl.
Qed.

Lemma float_lt_asym a b : float_lt a b = true → float_lt b a = false.
Proof.
  unfold float_lt, SFltb.
  destruct a as [sa|sa| |sa ma ea], b as [sb|sb| |sb mb eb]; simpl; try done;
    repeat match goal with s : bool |- _ => destruct s end; simpl; try done.
  all: change (PosDef.Pos.compare_cont Eq) with Pos.compare.
  all: destruct (Z.compare_spec ea eb), (Z.compare_spec eb ea); simpl;
         try done; try lia.
  all: destruct (Pos.compare_spec ma mb), (Pos.compare_spec mb ma); simpl;
         try done; try lia.
Qed.

Lemma float_not_lt_trans a b c :
  b ≠ S754_nan →
  float_lt b a = false → float_lt c b = false → float_lt c a = false.
Proof.
  unfold float_lt, SFltb.
  destruct a as [sa|sa| |sa ma ea], b as [sb|sb| |sb mb eb],
    c as [sc|sc| |sc mc ec]; simpl; try done;
    repeat match goal with s : bool |- _ => destruct s end; simpl; try done.
  all: change (PosDef.Pos.compare_cont Eq) with Pos.compare.
  all: intros _.
  all: destruct (Z.compare_spec eb ea), (Z.compare_spec ec eb),
         (Z.compare_spec ec ea); simpl; try done; try lia.
  all: destruct (Pos.compare_spec mb ma), (Pos.compare_spec mc mb),
         (Pos.compare_spec mc ma); simpl; try done; try lia.
Qed.

Lemma float_not_lt_le a b :
  a ≠ S754_nan → b ≠ S754_nan →
  float_lt a b = false → float_le b a = true.
Proof.
  unfold float_lt, float_le, SFltb, SFleb.
  destruct a as [sa|sa| |sa ma ea], b as [sb|sb| |sb mb eb]; simpl; try done;
    repeat match goal with s : bool |- _ => destruct s end; simpl; try done.
  all: change (PosDef.Pos.compare_cont Eq) with Pos.compare.
  all: intros _ _.
  all: destruct (Z.compare_spec ea eb), (Z.compare_spec eb ea); simpl;
         try done; try lia.
  all: destruct (Pos.compare_spec ma mb), (Pos.compare_spec mb ma); simpl;
         try done; try lia.
Qed.

(** [max(0.0, min(10.0, r))] is inside the interval whatever [r] is. *)
Lemma clamp_in_range r : in_range (py_max f0 (py_min f10 r)) = true.
Proof.
  unfold in_range, py_max, py_min.
  destruct (float_lt r f10) eqn:Hhi.
  - destruct (float_lt f0 r) eqn:Hlo.
    + by rewrite !float_lt_le.
    + reflexivity.
  - reflexivity.
Qed.

(** ** Text *)

Lemma lstrip_no_lead s : no_lead (lstrip s).
Proof.
  induction s as [|c s IH]; simpl; [done|].
  destruct (is_space c) eqn:Hc; [done|]. exact Hc.
Qed.

Lemma no_lead_lstrip s : no_lead s → lstrip s = s.
Proof. destruct s as [|c s]; simpl; [done|]. by intros ->. Qed.

Lemma no_lead_rstrip s : no_lead s → no_lead (rstrip s).
Proof.
  destruct s as [|c s]; simpl; [done|]. intros Hc.
  destruct (rstrip s); [by rewrite Hc|done].
Qed.

Lemma rstrip_idemp s : rstrip (rstrip s) = rstrip s.
Proof.
  induction s as [|c s IH]; simpl; [done|].
  destruct (rstrip s) as [|d u] eqn:Hu.
  - destruct (is_space c) eqn:Hc; simpl; [done|]. by rewrite Hc.
  - change (rstrip (String c (String d u))) with
      (match rstrip (String d u) with
       | EmptyString =>
           if is_space c then EmptyString else String c EmptyString
       | t => String c t
       end).
    by rewrite IH.
Qed.

(** Stripping stripped text changes nothing. *)
Lemma strip_idemp s : strip (strip s) = strip s.
Proof.
  unfold strip.
  rewrite (no_lead_lstrip (rstrip (lstrip s))).
  - apply rstrip_idemp.
  - apply no_lead_rstrip, lstrip_no_lead.
Qed.

Lemma append_cons c a b : String c a ++ b = String c (a ++ b).
Proof. reflexivity. Qed.

Lemma prefix_spec a s : String.prefix a s = true ↔ ∃ post, s = a ++ post.
Proof.
  revert s. induction a as [|c a IH]; intros [|d s]; simpl.
  - split; [by intros _; exists ""|done].
  - split; [by intros _; exists (String d s)|done].
  - split; [done|by intros [? ?]].
  - destruct (ascii_dec c d) as [->|Hne].
    + rewrite IH. split; intros [post Hp]; exists post.
      * by rewrite append_cons, Hp.
      * rewrite append_cons in Hp. congruence.
    + split; [done|]. intros [post Hp]. rewrite append_cons in Hp. congruence.
Qed.

Lemma str_in_nil sub : str_in sub "" = String.prefix sub "".
Proof. unfold str_in. apply orb_false_r. Qed.

Lemma str_in_cons sub c s :
  str_in sub (String c s) = String.prefix sub (String c s) || str_in sub s.
Proof. reflexivity. Qed.

(** [in] on text decides [substring]. *)
Lemma str_in_spec sub s : str_in sub s = true ↔ substring sub s.
Proof.
  unfold substring. split.
  - induction s as [|c s IH].
    + rewrite str_in_nil. intros [post Hp]%prefix_spec. by exists "", post.
    + rewrite str_in_cons, orb_true_iff. intros [Hp|Hin].
      * apply prefix_spec in Hp as [post Hp]. by exists "", post.
      * destruct (IH Hin) as (pre & post & ->). by exists (String c pre), post.
  - intros (pre & post & ->). induction pre as [|c pre IH].
    + change ("" ++ sub ++ post) with (sub ++ post).
      assert (String.prefix sub (sub ++ post) = true) as Hp
        by (apply prefix_spec; by exists post).
      destruct (sub ++ post).
      * by rewrite str_in_nil.
      * by rewrite str_in_cons, Hp.
    + by rewrite append_cons, str_in_cons, IH, orb_true_r.
Qed.

Lemma str_in_empty s : str_in "" s = true.
Proof. apply str_in_spec. by exists "", s. Qed.

Lemma ascii_compare_eq c d : Ascii.compare c d = Eq → c = d.
Proof. apply Ascii.compare_eq_iff. Qed.

Lemma ascii_compare_trans c d e :
  Ascii.compare c d = Lt → Ascii.compare d e = Lt → Ascii.compare c e = Lt.
Proof.
  unfold Ascii.compare. rewrite !N.compare_lt_iff. apply N.lt_trans.
Qed.

Lemma string_compare_trans a b c :
  String.compare a b = Lt → String.compare b c = Lt → String.compare a c = Lt.
Proof.
  revert b c. induction a as [|x a IH]; intros [|y b] [|z c]; simpl; try done.
  destruct (Ascii.compare x y) eqn:Hxy; try done;
    destruct (Ascii.compare y z) eqn:Hyz; try done; intros Hab Hbc.
  - apply ascii_compare_eq in Hxy, Hyz. subst.
    assert (Ascii.compare z z = Eq) as -> by (unfold Ascii.compare; apply N.compare_refl).
    by apply (IH b).
  - apply ascii_compare_eq in Hxy. subst. by rewrite Hyz.
  - apply ascii_compare_eq in Hyz. subst. by rewrite Hxy.
  - by rewrite (ascii_compare_trans x y z).
Qed.

Lemma str_lt_le a b : str_lt a b = negb (str_le b a).
Proof.
  unfold str_lt, str_le, String.ltb, String.leb.
  rewrite (String.compare_antisym a b). by destruct (String.compare b a).
Qed.

Lemma str_le_refl a : str_le a a = true.
Proof. destruct (String.leb_total a a); done. Qed.

Lemma str_le_total a b : str_le a b = true ∨ str_le b a = true.
Proof. apply String.leb_total. Qed.

Lemma str_le_trans a b c :
  str_le a b = true → str_le b c = true → str_le a c = true.
Proof.
  unfold str_le, String.leb.
  destruct (String.compare a b) eqn:Hab; try done;
    destruct (String.compare b c) eqn:Hbc; try done; intros _ _.
  - apply String.compare_eq_iff in Hab. subst a. by rewrite Hbc.
  - apply String.compare_eq_iff in Hab. subst a. by rewrite Hbc.
  - apply String.compare_eq_iff in Hbc. subst c. by rewrite Hab.
  - by rewrite (string_compare_trans a b c).
Qed.

Lemma str_lt_irrefl a b : a = b → str_lt a b = false.
Proof. intros ->. by rewrite str_lt_le, str_le_refl. Qed.

(** ** Sorting *)

Section SortFacts.
Context {A K : Type} (lt : K → K → bool) (key : A → K).
Implicit Types (x y : A) (l : list A).

Lemma insort_perm x l : insort lt key x l ≡ₚ x :: l.
Proof.
  induction l as [|y l IH]; simpl; [done|].
  destruct (lt (key y) (key x)); [|done].
  rewrite IH. apply Permutation_swap.
Qed.

Lemma sort_perm l : sort lt key l ≡ₚ l.
Proof.
  induction l as [|x l IH]; simpl; [done|].
  by rewrite insort_perm, IH.
Qed.

(** Stability: elements of a class [P] inside which no key is below
    another come out in the order they went in. *)
Section Stable.
Context (P : A → Prop) `{!∀ x, Decision (P x)}.
Hypothesis ties : ∀ x y, P x → P y → lt (key y) (key x) = false.

Lemma filter_insort x l : filter P (insort lt key x l) = filter P (x :: l).
Proof.
  induction l as [|y l IH]; simpl; [done|].
  destruct (lt (key y) (key x)) eqn:Hyx; [|done].
  rewrite (filter_cons _ y), IH, !filter_cons.
  destruct (decide (P x)) as [Hx|Hx], (decide (P y)) as [Hy|Hy]; try done.
  by rewrite (ties x y) in Hyx.
Qed.

Lemma filter_sort l : filter P (sort lt key l) = filter P l.
Proof.
  induction l as [|x l IH]; simpl; [done|].
  by rewrite filter_insort, !filter_cons, IH.
Qed.

End Stable.

(** Order: when [<] on the keys is asymmetric and its complement is
    transitive, no element of the output has a key below that of an
    earlier one ([reverse=False]) or of a later one ([reverse=True]). *)
Section Ordered.
Hypothesis asym : ∀ a b, lt a b = true → lt b a = false.
Hypothesis trans :
  ∀ a b c, lt b a = false → lt c b = false → lt c a = false.

Lemma insort_ascending x l :
  StronglySorted (ascending lt key) l →
  StronglySorted (ascending lt key) (insort lt key x l).
Proof.
  induction 1 as [|y l Hl IH Hy]; simpl; [repeat constructor|].
  destruct (lt (key y) (key x)) eqn:Hyx.
  - constructor; [done|]. rewrite insort_perm. constructor; [|done].
    by apply asym.
  - constructor; [by constructor|]. constructor; [done|].
    eapply Forall_impl; [exact Hy|]. intros z Hz. by eapply trans.
Qed.

Lemma sort_ascending l : StronglySorted (ascending lt key) (sort lt key l).
Proof.
  induction l as [|x l IH]; simpl; [constructor|].
  by apply insort_ascending.
Qed.

Lemma reverse_descending l :
  StronglySorted (ascending lt key) l →
  StronglySorted (descending lt key) (reverse l).
Proof.
  induction 1 as [|y l Hl IH Hy]; [constructor|].
  rewrite reverse_cons. apply StronglySorted_app. split_and!.
  - intros a b Ha ->%list_elem_of_singleton.
    rewrite elem_of_reverse in Ha. rewrite Forall_forall in Hy.
    by apply Hy.
  - done.
  - repeat constructor.
Qed.

Lemma lt_irrefl a : lt a a = false.
Proof. destruct (lt a a) eqn:E; [|done]. by rewrite (asym a a E) in E. Qed.

Lemma tie_not_lt k x y :
  tie lt key k x → tie lt key k y → lt (key y) (key x) = false.
Proof.
  unfold tie. rewrite !andb_True, !negb_True, !Is_true_false.
  intros [_ Hx] [Hy _]. by apply (trans _ k).
Qed.

(** Two ascending lists with the same elements and the same order inside
    every class of tied keys are one list. *)
Lemma stable_sorted_unique l1 l2 :
  l1 ≡ₚ l2 →
  StronglySorted (ascending lt key) l1 →
  StronglySorted (ascending lt key) l2 →
  (∀ k, filter (tie lt key k) l1 = filter (tie lt key k) l2) →
  l1 = l2.
Proof.
  revert l2. induction l1 as [|x t1 IH]; intros l2 Hperm H1 H2 Hstable.
  { by apply Permutation_nil_l in Hperm. }
  destruct l2 as [|y t2]; [by apply Permutation_nil_r in Hperm|].
  apply StronglySorted_cons in H1 as [Hx H1], H2 as [Hy H2].
  rewrite Forall_forall in Hx, Hy.
  assert (ascending lt key x y) as Hxy.
  { assert (y ∈ x :: t1) as [->|Hin]%elem_of_cons
      by (rewrite Hperm; left).
    - apply lt_irrefl.
    - by apply Hx. }
  assert (ascending lt key y x) as Hyx.
  { assert (x ∈ y :: t2) as [->|Hin]%elem_of_cons
      by (rewrite <-Hperm; left).
    - apply lt_irrefl.
    - by apply Hy. }
  unfold ascending in Hxy, Hyx.
  assert (x = y) as <-.
  { pose proof (Hstable (key x)) as Hk. rewrite !filter_cons in Hk.
    destruct (decide (tie lt key (key x) x)) as [_|Hn].
    - destruct (decide (tie lt key (key x) y)) as [_|Hn]; [congruence|].
      destruct Hn. unfold tie. by rewrite Hxy, Hyx.
    - destruct Hn. unfold tie. by rewrite lt_irrefl. }
  f_equal. apply IH; [by eapply Permutation_cons_inv|done|done|].
  intros k. specialize (Hstable k). rewrite !filter_cons in Hstable.
  destruct (decide (tie lt key k x)); congruence.
Qed.

(** A stable sort has one possible result. *)
Lemma sort_unique l l' :
  l' ≡ₚ l →
  StronglySorted (ascending lt key) l' →
  (∀ k, filter (tie lt key k) l' = filter (tie lt key k) l) →
  l' = sort lt key l.
Proof.
  intros Hperm Hsorted Hstable. apply stable_sorted_unique.
  - by rewrite sort_perm.
  - done.
  - apply sort_ascending.
  - intros k. rewrite Hstable. symmetry. apply filter_sort.
    intros x y Hx Hy. by apply (tie_not_lt k).
Qed.
End Ordered.
End SortFacts.

(** ** CPython's sort

    [list_sort] gives a rearrangement whatever [<] is; where [<] is
    asymmetric and its complement is transitive through the keys of the
    list, it gives what the stable insertion sort [sort] gives. *)
Section ListSort.
Context {A K : Type} (lt : K → K → bool) (key : A → K).
Implicit Types (x y : A) (l pre : list A).

(** The search is over when its rounds are as many as the items between
    the two indices: more rounds change nothing. *)
Lemma bisect_rounds rounds rounds' x pre (lo hi : nat) :
  (hi - lo ≤ rounds)%nat → (hi - lo ≤ rounds')%nat →
  bisect lt key rounds x pre lo hi = bisect lt key rounds' x pre lo hi.
Proof.
  revert rounds' lo hi.
  induction rounds as [|rounds IH]; intros rounds' lo hi Hr Hr'.
  - destruct rounds' as [|rounds']; [done|]. cbn [bisect].
    by destruct (Nat.ltb_spec lo hi); [lia|].
  - destruct rounds' as [|rounds']; cbn [bisect].
    { by destruct (Nat.ltb_spec lo hi); [lia|]. }
    destruct (Nat.ltb_spec lo hi) as [Hlt|Hge]; [|done]. cbv zeta.
    assert (2 * ((hi - lo) / 2) ≤ hi - lo)%nat as Hlow
      by apply Nat.Div0.mul_div_le.
    assert (hi - lo < 2 * S ((hi - lo) / 2))%nat as Hhigh
      by (by apply Nat.mul_succ_div_gt).
    destruct (pre !! _) as [y|]; [|done].
    destruct (lt (key x) (key y)); apply IH; lia.
Qed.

Lemma binary_insert_perm pre x : binary_insert lt key pre x ≡ₚ x :: pre.
Proof.
  unfold binary_insert.
  rewrite <-Permutation_middle, take_drop. done.
Qed.

Lemma foldl_binary_insert_perm rest pre :
  foldl (binary_insert lt key) pre rest ≡ₚ (pre ++ rest)%list.
Proof.
  revert pre. induction rest as [|x rest IH]; intros pre; simpl.
  { by rewrite app_nil_r. }
  rewrite IH, binary_insert_perm. by rewrite <-Permutation_middle.
Qed.

Lemma list_sort_perm l : list_sort lt key l ≡ₚ l.
Proof.
  unfold list_sort. destruct (count_run lt key l) as [n d].
  rewrite foldl_binary_insert_perm.
  assert ((if d then reverse (take n l) else take n l) ≡ₚ take n l) as ->.
  { destruct d; [apply reverse_Permutation|done]. }
  by rewrite take_drop.
Qed.

Lemma sorted_perm r l : sorted lt key r l ≡ₚ l.
Proof.
  destruct r; simpl; [|apply list_sort_perm].
  by rewrite reverse_Permutation, list_sort_perm, reverse_Permutation.
Qed.

Lemma filter_none (P : A → Prop) `{!∀ x, Decision (P x)} l :
  Forall (λ x, ¬ P x) l → filter P l = [].
Proof.
  induction 1 as [|x l Hx Hl IH]; [done|].
  by rewrite filter_cons_False.
Qed.

Lemma count_run_cons x l :
  count_run lt key (x :: l)
  = (S (run_on lt key (match l with y :: _ => lt (key y) (key x) | [] => false end)
          x l),
     match l with y :: _ => lt (key y) (key x) | [] => false end).
Proof.
  destruct l as [|y l]; [done|]. simpl.
  by rewrite Bool.eqb_reflx.
Qed.

Section On.
Context (ok : K → Prop).
Hypothesis asym : ∀ a b, lt a b = true → lt b a = false.
Hypothesis trans :
  ∀ a b c, ok b → lt b a = false → lt c b = false → lt c a = false.

Lemma lt_irrefl_on a : lt a a = false.
Proof. destruct (lt a a) eqn:E; [|done]. by rewrite (asym a a E) in E. Qed.

Lemma lt_trans_on a b c :
  ok c → lt a b = true → lt b c = true → lt a c = true.
Proof.
  intros Hc Hab Hbc. destruct (lt a c) eqn:Hac; [done|].
  rewrite (trans b c a Hc) in Hab; [done|by apply asym|done].
Qed.

Lemma tie_not_lt_on k x y :
  ok k → tie lt key k x → tie lt key k y → lt (key y) (key x) = false.
Proof.
  unfold tie. rewrite !andb_True, !negb_True, !Is_true_false.
  intros Hk [_ Hx] [Hy _]. by apply (trans _ k).
Qed.

Lemma stable_sorted_unique_on l1 l2 :
  Forall (λ x, ok (key x)) l1 →
  l1 ≡ₚ l2 →
  StronglySorted (ascending lt key) l1 →
  StronglySorted (ascending lt key) l2 →
  (∀ k, ok k → filter (tie lt key k) l1 = filter (tie lt key k) l2) →
  l1 = l2.
Proof.
  revert l2. induction l1 as [|x t1 IH]; intros l2 Hok Hperm H1 H2 Hstable.
  { by apply Permutation_nil_l in Hperm. }
  destruct l2 as [|y t2]; [by apply Permutation_nil_r in Hperm|].
  apply Forall_cons in Hok as [Hokx Hok].
  apply StronglySorted_cons in H1 as [Hx H1], H2 as [Hy H2].
  rewrite Forall_forall in Hx, Hy.
  assert (ascending lt key x y) as Hxy.
  { assert (y ∈ x :: t1) as [->|Hin]%elem_of_cons
      by (rewrite Hperm; left).
    - apply lt_irrefl_on.
    - by apply Hx. }
  assert (ascending lt key y x) as Hyx.
  { assert (x ∈ y :: t2) as [->|Hin]%elem_of_cons
      by (rewrite <-Hperm; left).
    - apply lt_irrefl_on.
    - by apply Hy. }
  unfold ascending in Hxy, Hyx.
  assert (x = y) as <-.
  { pose proof (Hstable (key x) Hokx) as Hk. rewrite !filter_cons in Hk.
    destruct (decide (tie lt key (key x) x)) as [_|Hn].
    - destruct (decide (tie lt key (key x) y)) as [_|Hn]; [congruence|].
      destruct Hn. unfold tie. by rewrite Hxy, Hyx.
    - destruct Hn. unfold tie. by rewrite lt_irrefl_on. }
  f_equal. apply IH; [done|by eapply Permutation_cons_inv|done|done|].
  intros k Hk. specialize (Hstable k Hk). rewrite !filter_cons in Hstable.
  destruct (decide (tie lt key k x)); congruence.
Qed.

Lemma sort_ascending_ok l :
  Forall (λ y, ok (key y)) l →
  StronglySorted (ascending lt key) (sort lt key l).
Proof.
  induction 1 as [|x l Hx Hl IH]; simpl; [constructor|].
  assert (Forall (λ y, ok (key y)) (sort lt key l)) as Hok.
  { by rewrite sort_perm. }
  revert IH Hok. generalize (sort lt key l). intros s Hs.
  induction Hs as [|y s Hs IH Hy]; simpl; [repeat constructor|].
  intros [Hoky Hok]%Forall_cons.
  destruct (lt (key y) (key x)) eqn:Hyx.
  - constructor; [by apply IH|]. rewrite insort_perm. constructor; [|done].
    by apply asym.
  - constructor; [by constructor|]. constructor; [done|].
    eapply Forall_impl; [exact Hy|]. intros z Hz. by apply (trans _ (key y)).
Qed.

(** The binary search ends at the place after the items that are not
    above [x]. *)
Lemma bisect_spec rounds x pre (lo hi : nat) :
  Forall (λ y, ok (key y)) pre →
  StronglySorted (ascending lt key) pre →
  (lo ≤ hi)%nat → (hi ≤ length pre)%nat → (hi - lo ≤ rounds)%nat →
  Forall (λ y, lt (key x) (key y) = false) (take lo pre) →
  Forall (λ y, lt (key x) (key y) = true) (drop hi pre) →
  Forall (λ y, lt (key x) (key y) = false)
    (take (bisect lt key rounds x pre lo hi) pre) ∧
  Forall (λ y, lt (key x) (key y) = true)
    (drop (bisect lt key rounds x pre lo hi) pre).
Proof.
  intros Hok Hpre. revert lo hi.
  induction rounds as [|rounds IH]; intros lo hi Hlr Hr Hrounds Hl Hd;
    cbn [bisect].
  { by replace hi with lo in Hd by lia. }
  destruct (Nat.ltb_spec lo hi) as [Hlt|Hge];
    [|by replace hi with lo in Hd by lia].
  cbv zeta. set (p := (lo + (hi - lo) / 2)%nat).
  assert (2 * ((hi - lo) / 2) ≤ hi - lo)%nat as Hlow
    by apply Nat.Div0.mul_div_le.
  assert (hi - lo < 2 * S ((hi - lo) / 2))%nat as Hhigh
    by (by apply Nat.mul_succ_div_gt).
  assert (lo ≤ p ∧ p < hi)%nat as [Hlp Hpr] by (unfold p; lia).
  destruct (lookup_lt_is_Some_2 pre p) as [y Hy]; [lia|].
  rewrite Hy.
  pose proof (take_drop_middle pre p y Hy) as Hsplit.
  rewrite <-Hsplit in Hpre.
  apply StronglySorted_app in Hpre as (Hcross & _ & Hright).
  apply StronglySorted_cons in Hright as [Hright _].
  assert (ok (key y)) as Hoky.
  { rewrite Forall_forall in Hok. apply Hok.
    by eapply list_elem_of_lookup_2. }
  destruct (lt (key x) (key y)) eqn:Hxy.
  - apply IH; [lia|lia|unfold p in *; lia|done|].
    rewrite (drop_S _ _ _ Hy). constructor; [done|].
    rewrite Forall_forall in Hright, Hok. apply Forall_forall.
    intros z Hz. specialize (Hright z Hz). unfold ascending in Hright.
    destruct (lt (key x) (key z)) eqn:Hxz; [done|].
    rewrite (trans (key y) (key z) (key x)) in Hxy; [done| |done|done].
    apply Hok. rewrite <-Hsplit, elem_of_app, elem_of_cons. auto.
  - apply IH; [lia|lia|unfold p in *; lia| |done].
    rewrite (take_S_r _ _ _ Hy). apply Forall_app.
    split; [|by repeat constructor].
    apply Forall_forall. intros z Hz.
    assert (ascending lt key z y) as Hzy by (apply Hcross; [done|left]).
    unfold ascending in Hzy. by apply (trans _ (key y)).
Qed.

Lemma binary_insert_sorted pre x :
  Forall (λ y, ok (key y)) pre →
  StronglySorted (ascending lt key) pre →
  StronglySorted (ascending lt key) (binary_insert lt key pre x).
Proof.
  intros Hok Hpre. unfold binary_insert.
  destruct (bisect_spec (length pre) x pre 0 (length pre)) as [Hbefore Hafter];
    [done|done|lia|lia|lia|constructor|by rewrite drop_all|].
  set (i := bisect lt key (length pre) x pre 0 (length pre)) in *.
  rewrite <-(take_drop i pre) in Hpre.
  apply StronglySorted_app in Hpre as (Hcross & Hleft & Hright).
  apply StronglySorted_app. split_and!.
  - intros a b Ha [->|Hb]%elem_of_cons.
    + rewrite Forall_forall in Hbefore. by apply Hbefore.
    + by apply Hcross.
  - done.
  - constructor; [done|]. eapply Forall_impl; [exact Hafter|].
    intros z Hz. by apply asym.
Qed.

Lemma binary_insert_stable pre x k :
  ok k →
  Forall (λ y, ok (key y)) pre →
  StronglySorted (ascending lt key) pre →
  filter (tie lt key k) (binary_insert lt key pre x)
  = filter (tie lt key k) (pre ++ [x])%list.
Proof.
  intros Hk Hok Hpre. unfold binary_insert.
  destruct (bisect_spec (length pre) x pre 0 (length pre)) as [_ Hafter];
    [done|done|lia|lia|lia|constructor|by rewrite drop_all|].
  set (i := bisect lt key (length pre) x pre 0 (length pre)) in *.
  trans (filter (tie lt key k) ((take i pre ++ drop i pre) ++ [x])%list);
    [|by rewrite take_drop].
  rewrite !filter_app, (filter_cons _ x).
  destruct (decide (tie lt key k x)) as [Hx|Hx].
  - assert (filter (tie lt key k) (drop i pre) = []) as ->.
    { apply filter_none. eapply Forall_impl; [exact Hafter|]. simpl.
      intros y Hxy Hy. by rewrite (tie_not_lt_on k y x) in Hxy. }
    by rewrite app_nil_r, filter_cons_True, filter_nil.
  - by rewrite filter_cons_False, filter_nil, app_nil_r.
Qed.

Lemma foldl_binary_insert_sorted rest pre :
  Forall (λ y, ok (key y)) (pre ++ rest)%list →
  StronglySorted (ascending lt key) pre →
  StronglySorted (ascending lt key) (foldl (binary_insert lt key) pre rest) ∧
  ∀ k, ok k →
    filter (tie lt key k) (foldl (binary_insert lt key) pre rest)
    = filter (tie lt key k) (pre ++ rest)%list.
Proof.
  revert pre. induction rest as [|x rest IH]; intros pre Hok Hpre; simpl.
  { by rewrite app_nil_r. }
  apply Forall_app in Hok as [Hpok [Hxok Hrok]%Forall_cons].
  destruct (IH (binary_insert lt key pre x)) as [Hs Hf].
  - apply Forall_app. split; [|done].
    rewrite binary_insert_perm. by constructor.
  - by apply binary_insert_sorted.
  - split; [done|]. intros k Hk.
    rewrite Hf, !filter_app, binary_insert_stable by done.
    by rewrite <-filter_app, <-app_assoc, filter_app.
Qed.

(** The run at the head of the list, as [count_run] measures it. *)
Lemma run_ascending prev l :
  Forall (λ y, ok (key y)) l →
  StronglySorted (ascending lt key)
    (prev :: take (run_on lt key false prev l) l).
Proof.
  intros Hok. revert prev.
  induction Hok as [|y l Hy Hl IH]; intros prev; simpl;
    [repeat constructor|].
  destruct (lt (key y) (key prev)) eqn:Hyp; simpl; [repeat constructor|].
  specialize (IH y). constructor; [done|]. constructor; [done|].
  apply StronglySorted_cons in IH as [IH _].
  eapply Forall_impl; [exact IH|]. intros z Hz. by apply (trans _ (key y)).
Qed.

Lemma run_descending prev l :
  ok (key prev) → Forall (λ y, ok (key y)) l →
  StronglySorted (λ a b, lt (key b) (key a) = true)
    (prev :: take (run_on lt key true prev l) l).
Proof.
  intros Hprev Hok. revert prev Hprev.
  induction Hok as [|y l Hy Hl IH]; intros prev Hprev; simpl;
    [repeat constructor|].
  destruct (lt (key y) (key prev)) eqn:Hyp; simpl; [|repeat constructor].
  specialize (IH y Hy). constructor; [done|]. constructor; [done|].
  apply StronglySorted_cons in IH as [IH _].
  eapply Forall_impl; [exact IH|]. intros z Hz. simpl in *.
  by apply (lt_trans_on _ (key y)).
Qed.

Lemma reverse_run l :
  StronglySorted (λ a b, lt (key b) (key a) = true) l →
  StronglySorted (ascending lt key) (reverse l).
Proof.
  induction 1 as [|y l Hl IH Hy]; [constructor|].
  rewrite reverse_cons. apply StronglySorted_app. split_and!.
  - intros a b Ha ->%list_elem_of_singleton.
    rewrite elem_of_reverse in Ha. rewrite Forall_forall in Hy.
    apply asym. by apply Hy.
  - done.
  - repeat constructor.
Qed.

(** A descending run holds at most one item of each class of tied keys,
    so that reversing it changes the order inside no class. *)
Lemma filter_reverse_run l k :
  ok k →
  StronglySorted (λ a b, lt (key b) (key a) = true) l →
  filter (tie lt key k) (reverse l) = filter (tie lt key k) l.
Proof.
  intros Hk Hl. rewrite filter_reverse.
  assert (filter (tie lt key k) l = []
          ∨ ∃ a, filter (tie lt key k) l = [a]) as [->|[a ->]]; [|done..].
  induction Hl as [|a l Hl IH Ha]; [by left|].
  rewrite filter_cons. destruct (decide (tie lt key k a)) as [Hka|Hka];
    [|done].
  right. exists a. f_equal. apply filter_none.
  eapply Forall_impl; [exact Ha|]. simpl. intros b Hba Hkb.
  by rewrite (tie_not_lt_on k a b) in Hba.
Qed.

Lemma list_sort_sorted l :
  Forall (λ y, ok (key y)) l →
  StronglySorted (ascending lt key) (list_sort lt key l) ∧
  ∀ k, ok k →
    filter (tie lt key k) (list_sort lt key l) = filter (tie lt key k) l.
Proof.
  intros Hok. destruct l as [|x l]; [by split; [constructor|]|].
  unfold list_sort. rewrite count_run_cons.
  set (d := match l with y :: _ => lt (key y) (key x) | [] => false end).
  rewrite firstn_cons, skipn_cons.
  set (n := run_on lt key d x l).
  apply Forall_cons in Hok as Hok'. destruct Hok' as [Hx Hl].
  assert (Forall (λ y, ok (key y)) ((x :: take n l) ++ drop n l)%list)
    as Hall.
  { by rewrite <-app_comm_cons, take_drop. }
  destruct d.
  - pose proof (run_descending x l Hx Hl) as Hrun. fold n in Hrun.
    destruct (foldl_binary_insert_sorted (drop n l)
                (reverse (x :: take n l))) as [Hs Hf].
    + by rewrite reverse_Permutation.
    + by apply reverse_run.
    + split; [done|]. intros k Hk.
      rewrite Hf, filter_app, filter_reverse_run, <-filter_app by done.
      by rewrite <-app_comm_cons, take_drop.
  - pose proof (run_ascending x l Hl) as Hrun. fold n in Hrun.
    destruct (foldl_binary_insert_sorted (drop n l) (x :: take n l))
      as [Hs Hf]; [done..|].
    split; [done|]. intros k Hk.
    by rewrite Hf, <-app_comm_cons, take_drop.
Qed.

(** Where [<] orders the keys of the list, CPython's sort gives what the
    stable insertion sort gives. *)
Lemma list_sort_sort_on l :
  Forall (λ y, ok (key y)) l → list_sort lt key l = sort lt key l.
Proof.
  intros Hok. destruct (list_sort_sorted l Hok) as [Hs Hf].
  apply stable_sorted_unique_on.
  - by rewrite list_sort_perm.
  - by rewrite list_sort_perm, sort_perm.
  - done.
  - by apply sort_ascending_ok.
  - intros k Hk. rewrite Hf by done. symmetry. apply filter_sort.
    intros x y Hx Hy. by apply (tie_not_lt_on k).
Qed.

Lemma sorted_stable_on r l :
  Forall (λ y, ok (key y)) l →
  sorted lt key r l
  = if r then reverse (sort lt key (reverse l)) else sort lt key l.
Proof.
  intros Hok. unfold sorted. destruct r; [|by apply list_sort_sort_on].
  rewrite list_sort_sort_on; [done|]. by rewrite reverse_Permutation.
Qed.
End On.

(** Order and stability of [sorted]: when [<] on the keys is asymmetric
    and its complement is transitive. *)
Section Total.
Hypothesis asym : ∀ a b, lt a b = true → lt b a = false.
Hypothesis trans :
  ∀ a b c, lt b a = false → lt c b = false → lt c a = false.

Lemma sorted_stable r l :
  sorted lt key r l
  = if r then reverse (sort lt key (reverse l)) else sort lt key l.
Proof.
  apply (sorted_stable_on (λ _, True)); [done| |].
  - intros a b c _. apply trans.
  - by apply Forall_forall.
Qed.

Lemma sorted_descending l :
  StronglySorted (descending lt key) (sorted lt key true l).
Proof.
  rewrite sorted_stable. by apply reverse_descending, sort_ascending.
Qed.

Lemma filter_sorted (P : A → Prop) `{!∀ x, Decision (P x)} r l :
  (∀ x y, P x → P y → lt (key y) (key x) = false) →
  filter P (sorted lt key r l) = filter P l.
Proof.
  intros ties. rewrite sorted_stable.
  destruct r; [|by apply filter_sort].
  by rewrite filter_reverse, filter_sort, filter_reverse,
    reverse_involutive.
Qed.
End Total.
End ListSort.

(** ** The record model *)

Section RecordModel.
Context `{Builtins}.

Lemma float_of_int_0 : float_of_int 0 = Ok f0.
Proof. reflexivity. Qed.

(** The [try] block of the form yields a float whatever the text. *)
Lemma parse_rating_ok text : ∃ r, parse_rating text = Ok r.
Proof.
  unfold parse_rating, py_or. simpl.
  destruct (str_truthy (strip text)); simpl.
  - destruct (float_of_str (strip text)); eauto.
  - eauto.
Qed.

(** Text that [float] rejects as the rating makes [from_dict] raise. *)
Lemma from_dict_raises_on_text now payload s :
  payload !! "rating" = Some (JStr s) → s ≠ "" → float_of_str s = None →
  from_dict now payload = Raise ValueError.
Proof.
  intros Hr Hs Hf. unfold from_dict, get. rewrite Hr. simpl.
  unfold py_or. simpl. destruct s; [done|]. simpl. by rewrite Hf.
Qed.

(** An absent, null or empty rating becomes 0.0. *)
Lemma from_dict_default_rating now payload :
  truthy (get payload "rating" (JInt 0)) = false →
  ∃ m, from_dict now payload = Ok m ∧ rating m = f0.
Proof.
  intros Hr. unfold from_dict, py_or. rewrite Hr. simpl.
  eexists. split; [done|]. unfold __post_init__. by case_match.
Qed.
End RecordModel.

(** C1 (the code departs from the claim): [from_dict] raises [TypeError] on
    the payload [{"title": "X", "rating": [1]}], where the claim has it
    return a record with rating 0. *)
Theorem from_dict_raises `{Builtins} now :
  from_dict now (<["rating" := JList [JInt 1]]> {[ "title" := JStr "X" ]})
  = Raise TypeError.
Proof. reflexivity. Qed.

(** C2 (the code departs from the claim): on the payload
    [{"title": "X", "rating": 11}], [from_dict] returns a record whose
    rating is 11.0, outside [0.0, 10.0]. *)
Theorem from_dict_does_not_clamp `{Builtins} now :
  ∃ m, from_dict now (<["rating" := JInt 11]> {[ "title" := JStr "X" ]}) = Ok m
       ∧ rating m = f11 ∧ in_range (rating m) = false.
Proof. eexists. split; [reflexivity|]. by split. Qed.

(** ** Save and load *)

Section Persistence.
Context `{Builtins}.

(** A tidy record comes back from its own [asdict] unchanged. *)
Lemma from_dict_asdict now m : tidy m → from_dict now (asdict m) = Ok m.
Proof.
  intros [Ht Hy Hp Htr Hl Hn Hc Hne Hr]. unfold trimmed in *.
  unfold from_dict.
  change (get (asdict m) "rating" (JInt 0)) with (JFloat (rating m)).
  assert (to_float (py_or (JFloat (rating m)) (JInt 0)) = Ok (rating m))
    as ->.
  { unfold py_or. simpl. destruct (rating m) as [[]| | |]; done. }
  simpl. f_equal.
  change (get (asdict m) "title" (JStr "")) with (JStr (title m)).
  change (get (asdict m) "year" (JStr "")) with (JStr (year m)).
  change (get (asdict m) "poster_url" (JStr ""))
    with (JStr (poster_url m)).
  change (get (asdict m) "watched" (JBool false))
    with (JBool (watched m)).
  change (get (asdict m) "favorite" (JBool false))
    with (JBool (favorite m)).
  change (get (asdict m) "watchlist" (JBool true))
    with (JBool (watchlist m)).
  change (get (asdict m) "trailer_url" (JStr ""))
    with (JStr (trailer_url m)).
  change (get (asdict m) "local_file" (JStr ""))
    with (JStr (local_file m)).
  change (get (asdict m) "notes" (JStr "")) with (JStr (notes m)).
  change (get (asdict m) "created_at" (JStr ""))
    with (JStr (created_at m)).
  simpl. rewrite Ht, Hy, Hp, Htr, Hl, Hn, Hc.
  unfold __post_init__. simpl.
  destruct m as [? ? ? ? ? ? ? ? ? ? c]. simpl in *. by destruct c.
Qed.

(** What [from_dict] builds is tidy, but for a rating that [float] read
    as the negative zero; [now] is a time stamp. *)
Lemma from_dict_tidy now payload m :
  trimmed now → now ≠ "" → from_dict now payload = Ok m →
  rating m ≠ S754_zero true → tidy m.
Proof.
  intros Hnow Hne. unfold from_dict.
  destruct (to_float _) as [r|]; [|done]. simpl. intros [= <-].
  unfold __post_init__. simpl.
  destruct (strip (to_str (get payload "created_at" (JStr "")))) eqn:Hc;
    simpl; intros Hr; split; simpl; try apply strip_idemp; try done.
  unfold trimmed. by rewrite <-Hc, strip_idemp.
Qed.

Lemma load_items_asdict clock i ms :
  Forall tidy ms →
  load_items clock i ((λ m, JDict (asdict m)) <$> ms) = Ok ms.
Proof.
  intros Hms. revert i.
  induction Hms as [|m ms Hm _ IH]; intros i; simpl; [done|].
  by rewrite from_dict_asdict, IH.
Qed.

(** Elements that are not mappings are passed over. *)
Lemma load_items_dicts clock i data :
  load_items clock i data
  = load_items clock i (JDict <$> dicts data).
Proof.
  revert i. induction data as [|v data IH]; intros i; [done|].
  destruct v; simpl; try apply IH.
  destruct (from_dict (clock i) d); simpl; [|done]. by rewrite IH.
Qed.

(** When [from_dict] raises on no mapping, the records are its results
    in order, the [i]-th built at the time [clock i]. *)
Lemma load_items_all_ok clock i (ds : list (gmap string json)) :
  (∀ k d, ds !! k = Some d → ¬ raises (from_dict (clock (i + k)%nat) d)) →
  ∃ ms, load_items clock i (JDict <$> ds) = Ok ms ∧
        Ok <$> ms = imap (λ k d, from_dict (clock (i + k)%nat) d) ds.
Proof.
  revert i. induction ds as [|d ds IH]; intros i Hok.
  - by exists [].
  - pose proof (Hok 0%nat d eq_refl) as Hd. rewrite Nat.add_0_r in Hd.
    destruct (IH (S i)) as (ms & Hl & Hms).
    { intros k d' Hk. specialize (Hok (S k) d' Hk).
      by rewrite Nat.add_succ_r in Hok. }
    rewrite fmap_cons. cbn [load_items imap].
    rewrite Nat.add_0_r.
    destruct (from_dict (clock i) d) as [m|] eqn:Hm; [|done].
    exists (m :: ms). cbn [mbind result_bind]. rewrite Hl.
    split; [done|]. rewrite fmap_cons, Hms. f_equal.
    apply imap_ext. intros k d' _. simpl. by rewrite Nat.add_succ_r.
Qed.

Lemma load_missing clock st :
  disk st !! data_file st = None → _load_movies clock st = [].
Proof. unfold _load_movies. by intros ->. Qed.

Lemma load_not_json clock st :
  disk st !! data_file st = Some OtherFile → _load_movies clock st = [].
Proof. unfold _load_movies. by intros ->. Qed.

Lemma load_not_a_list clock st doc :
  disk st !! data_file st = Some (JsonFile doc) →
  (∀ data, doc ≠ JList data) → _load_movies clock st = [].
Proof.
  unfold _load_movies. intros -> Hdoc. simpl.
  destruct doc; try done. by destruct (Hdoc l).
Qed.

Lemma load_a_list clock st data :
  disk st !! data_file st = Some (JsonFile (JList data)) →
  (∀ k d, dicts data !! k = Some d → ¬ raises (from_dict (clock k) d)) →
  Ok <$> _load_movies clock st
  = imap (λ k d, from_dict (clock k) d) (dicts data).
Proof.
  unfold _load_movies. intros -> Hok. simpl.
  rewrite load_items_dicts.
  destruct (load_items_all_ok clock 0 (dicts data) Hok) as (ms & -> & Hms).
  exact Hms.
Qed.
End Persistence.

Lemma post_init_eq now m :
  __post_init__ now m
  = {| title := title m; year := year m; rating := rating m;
       poster_url := poster_url m; watched := watched m;
       favorite := favorite m; watchlist := watchlist m;
       trailer_url := trailer_url m; local_file := local_file m;
       notes := notes m;
       created_at := if str_truthy (created_at m) then created_at m else now |}.
Proof.
  unfold __post_init__. destruct m as [? ? ? ? ? ? ? ? ? ? c]. simpl.
  by destruct c.
Qed.

Lemma strip_empty : strip "" = "".
Proof. reflexivity. Qed.

Section Reload.
Context `{Builtins}.

Lemma from_dict_asdict_any now m :
  from_dict now (asdict m) = Ok (reloaded now m).
Proof.
  unfold from_dict.
  change (get (asdict m) "rating" (JInt 0)) with (JFloat (rating m)).
  assert (to_float (py_or (JFloat (rating m)) (JInt 0))
          = Ok (if float_truthy (rating m) then rating m else f0)) as ->.
  { unfold py_or. simpl. by destruct (float_truthy (rating m)). }
  simpl. rewrite post_init_eq. reflexivity.
Qed.

Lemma load_items_asdict_any clock i ms :
  load_items clock i ((λ m, JDict (asdict m)) <$> ms)
  = Ok (imap (λ k m, reloaded (clock (i + k)%nat) m) ms).
Proof.
  revert i. induction ms as [|m ms IH]; intros i; [done|].
  rewrite fmap_cons. cbn [load_items imap].
  rewrite from_dict_asdict_any, IH, Nat.add_0_r. cbn [mbind result_bind].
  do 2 f_equal. apply imap_ext. intros k m' _. simpl.
  by rewrite Nat.add_succ_r.
Qed.

Lemma reloaded_tidy now m : trimmed now → now ≠ "" → tidy (reloaded now m).
Proof.
  intros Hnow Hne. split; simpl; try apply strip_idemp.
  - destruct (str_truthy _); [apply strip_idemp|done].
  - by destruct (strip (created_at m)).
  - by destruct (rating m) as [[]| | |].
Qed.

Lemma reloaded_fixed now m : tidy m → reloaded now m = m.
Proof.
  intros [Ht Hy Hp Htr Hl Hn Hc Hne Hr]. unfold trimmed in *.
  unfold reloaded. rewrite Ht, Hy, Hp, Htr, Hl, Hn, Hc.
  destruct m as [? ? r ? ? ? ? ? ? ? c]. simpl in *.
  destruct c; [done|]. simpl. by destruct r as [[]| | |].
Qed.
End Reload.




(** C5, as amended: [_load_movies] returns a list in every case; it is
    empty when the file is missing, is not JSON, or holds something other
    than an array; and for an array on whose mappings [from_dict] does not
    raise it is the records [from_dict] builds from the mappings, in order,
    the other elements being dropped. *)
Theorem load_is_lenient `{Builtins} clock st :
  (disk st !! data_file st = None → _load_movies clock st = []) ∧
  (disk st !! data_file st = Some OtherFile → _load_movies clock st = []) ∧
  (∀ doc, disk st !! data_file st = Some (JsonFile doc) →
     (∀ data, doc ≠ JList data) → _load_movies clock st = []) ∧
  (∀ data, disk st !! data_file st = Some (JsonFile (JList data)) →
     (∀ k d, dicts data !! k = Some d → ¬ raises (from_dict (clock k) d)) →
     Ok <$> _load_movies clock st
     = imap (λ k d, from_dict (clock k) d) (dicts data)).
Proof.
  split_and!.
  - apply load_missing.
  - apply load_not_json.
  - apply load_not_a_list.
  - apply load_a_list.
Qed.

(** ** The query *)

Section Query.
Implicit Types (st : App) (l : list loc) (s : App * loc).

Lemma only_new_lists_refl st : only_new_lists st st.
Proof. split; [by destruct st|done]. Qed.

Lemma only_new_lists_obj st st' x : only_new_lists st st' → obj st' x = obj st x.
Proof. by intros [<- _]. Qed.

Lemma filter_all {A} (P : A → Prop) `{!∀ x, Decision (P x)} (l : list A) :
  (∀ x, P x) → filter P l = l.
Proof.
  intros HP. induction l as [|x l IH]; [done|].
  by rewrite filter_cons_True, IH.
Qed.

(** A new list object is none of the old ones, and leaves them alone. *)
Lemma new_list_holds st0 st l :
  only_new_lists st0 st →
  holds st0 l (new_list l st) ∧ lists st0 !! (new_list l st).2 = None.
Proof.
  intros [Hst Hsub]. unfold new_list, holds, only_new_lists. simpl.
  pose proof (is_fresh (dom (lists st))) as Hfresh.
  apply not_elem_of_dom in Hfresh.
  assert (lists st0 !! fresh (dom (lists st)) = None) as Hnew.
  { destruct (lists st0 !! fresh (dom (lists st))) eqn:E; [|done].
    eapply lookup_weaken in E; [|exact Hsub]. congruence. }
  split_and!.
  - by rewrite <-Hst.
  - etrans; [exact Hsub|]. by apply insert_subseteq.
  - apply lookup_insert_eq.
  - done.
Qed.

Lemma holds_elems st0 l s : holds st0 l s → elems s.1 s.2 = l.
Proof. intros [_ Hl]. unfold elems. by rewrite (lookup_total_correct _ _ _ Hl). Qed.

Lemma holds_start st l : lists st !! movies st = Some l → holds st l (st, movies st).
Proof. intros Hl. split; [apply only_new_lists_refl|done]. Qed.

Lemma comprehension_holds st0 l s (p : Movie → bool) :
  holds st0 l s →
  holds st0 (filter (λ x, p (obj st0 x)) l) (comprehension p s) ∧
  lists st0 !! (comprehension p s).2 = None.
Proof.
  intros Hs. pose proof (holds_elems _ _ _ Hs) as He.
  destruct s as [st items], Hs as [Hst Hl]. simpl in *.
  rewrite He.
  assert (filter (λ x, p (obj st x)) l = filter (λ x, p (obj st0 x)) l)
    as ->.
  { apply list_filter_iff. intros x.
    by rewrite (only_new_lists_obj st0 st). }
  by apply new_list_holds.
Qed.

Lemma sorted_by_holds {K} st0 l s (lt : K → K → bool) (k : Movie → K) r :
  holds st0 l s →
  holds st0 (sorted lt (λ x, k (obj st0 x)) r l) (sorted_by lt k r s) ∧
  lists st0 !! (sorted_by lt k r s).2 = None.
Proof.
  intros Hs. pose proof (holds_elems _ _ _ Hs) as He.
  destruct s as [st items], Hs as [Hst Hl]. simpl in *.
  rewrite He.
  assert ((λ x, k (obj st x)) = (λ x, k (obj st0 x))) as ->.
  { destruct Hst as [<- _]. reflexivity. }
  by apply new_list_holds.
Qed.

(** What the search box keeps. *)
Lemma search_holds st l0 :
  lists st !! movies st = Some l0 →
  let search := lower (strip (search_input st)) in
  holds st (filter (λ x, matches search (obj st x)) l0)
    (if str_truthy search then comprehension (matches search) (st, movies st)
     else (st, movies st)).
Proof.
  intros Hl search. destruct (str_truthy search) eqn:Hs.
  - by apply comprehension_holds, holds_start.
  - destruct search; [|done]. rewrite filter_all.
    + by apply holds_start.
    + intros x. unfold matches. by rewrite str_in_empty.
Qed.

(** What the search box and the filter mode keep. *)
Lemma filter_holds st l0 :
  lists st !! movies st = Some l0 →
  let search := lower (strip (search_input st)) in
  let items :=
    if str_truthy search then comprehension (matches search) (st, movies st)
    else (st, movies st) in
  holds st (filter (λ x, passes st (obj st x)) l0)
    (if (filter_spinner st =? "Watched")%string then
       comprehension watched items
     else if (filter_spinner st =? "Favorite")%string then
       comprehension favorite items
     else if (filter_spinner st =? "Watchlist")%string then
       comprehension watchlist items
     else items).
Proof.
  intros Hl search items. pose proof (search_holds st l0 Hl) as Hs.
  fold search items in Hs.
  assert (∀ p : Movie → bool,
    (∀ m, flag_ok (filter_spinner st) m = p m) →
    filter (λ x, p (obj st x)) (filter (λ x, matches search (obj st x)) l0)
    = filter (λ x, passes st (obj st x)) l0) as Hpq.
  { intros p Hp. rewrite list_filter_filter. apply list_filter_iff.
    intros x. unfold passes. fold search. rewrite Hp.
    rewrite andb_True. tauto. }
  unfold flag_ok in Hpq.
  destruct (filter_spinner st =? "Watched")%string.
  { rewrite <-(Hpq watched) by done. by apply comprehension_holds. }
  destruct (filter_spinner st =? "Favorite")%string.
  { rewrite <-(Hpq favorite) by done. by apply comprehension_holds. }
  destruct (filter_spinner st =? "Watchlist")%string.
  { rewrite <-(Hpq watchlist) by done. by apply comprehension_holds. }
  rewrite <-(Hpq (λ _, true)) by done.
  rewrite (filter_all (λ x, (λ _ : Movie, true) (obj st x))); done.
Qed.

(** The list [_filtered_movies] returns: the records that pass, in the
    order of the sort mode, in a store that only gained list objects. *)
Lemma filtered_holds st l0 :
  lists st !! movies st = Some l0 →
  holds st (arranged st (filter (λ x, passes st (obj st x)) l0))
    (_filtered_movies st).
Proof.
  intros Hl. pose proof (filter_holds st l0 Hl) as Hf. simpl in Hf.
  unfold _filtered_movies, arranged.
  destruct (sort_spinner st =? "Title")%string.
  { by apply sorted_by_holds. }
  destruct (sort_spinner st =? "Year")%string.
  { by apply sorted_by_holds. }
  destruct (sort_spinner st =? "Rating")%string.
  { by apply sorted_by_holds. }
  exact Hf.
Qed.

(** Under a sort mode of the spinner the list returned is a new object. *)
Lemma filtered_new st l0 :
  lists st !! movies st = Some l0 →
  sort_spinner st ∈ ["Title"; "Year"; "Rating"] →
  lists st !! (_filtered_movies st).2 = None.
Proof.
  intros Hl Hsort. pose proof (filter_holds st l0 Hl) as Hf. simpl in Hf.
  unfold _filtered_movies.
  destruct (sort_spinner st =? "Title")%string eqn:E1.
  { by eapply sorted_by_holds. }
  destruct (sort_spinner st =? "Year")%string eqn:E2.
  { by eapply sorted_by_holds. }
  destruct (sort_spinner st =? "Rating")%string eqn:E3.
  { by eapply sorted_by_holds. }
  apply String.eqb_neq in E1, E2, E3.
  rewrite !elem_of_cons, elem_of_nil in Hsort.
  by destruct Hsort as [?|[?|[?|[]]]].
Qed.
End Query.

Section Orders.
Context {A : Type}.

Lemma StronglySorted_weaken (R1 R2 : A → A → Prop) (l : list A) :
  (∀ a b, R1 a b → R2 a b) → StronglySorted R1 l → StronglySorted R2 l.
Proof.
  intros HR. induction 1 as [|x l Hl IH Hx]; constructor; [done|].
  eapply Forall_impl; [exact Hx|]. auto.
Qed.

Lemma StronglySorted_lookup (R : A → A → Prop) (l : list A) i j a b :
  StronglySorted R l → l !! i = Some a → l !! j = Some b → (i < j)%nat →
  R a b.
Proof.
  intros Hl. revert i j.
  induction Hl as [|x l Hl IH Hx]; intros i j Hi Hj Hij; [done|].
  destruct j as [|j]; [lia|]. destruct i as [|i]; simpl in *.
  - injection Hi as ->. rewrite Forall_forall in Hx.
    apply Hx. by eapply list_elem_of_lookup_2.
  - apply (IH i j); [done|done|lia].
Qed.
End Orders.

Lemma str_lt_asym a b : str_lt a b = true → str_lt b a = false.
Proof.
  rewrite !str_lt_le, negb_true_iff, negb_false_iff. intros Hba.
  destruct (str_le_total a b) as [?|?]; congruence.
Qed.

Lemma str_not_lt_trans a b c :
  str_lt b a = false → str_lt c b = false → str_lt c a = false.
Proof. rewrite !str_lt_le, !negb_false_iff. apply str_le_trans. Qed.

Lemma arranged_title st l :
  sort_spinner st = "Title" →
  arranged st l = sort str_lt (λ x, lower (title (obj st x))) l.
Proof.
  unfold arranged. intros ->. simpl.
  apply (sorted_stable _ _ str_lt_asym str_not_lt_trans false).
Qed.

Lemma arranged_year st l :
  sort_spinner st = "Year" →
  arranged st l = sorted str_lt (λ x, year_key (obj st x)) true l.
Proof. unfold arranged. by intros ->. Qed.

Lemma arranged_perm st l : arranged st l ≡ₚ l.
Proof. unfold arranged. repeat case_match; try apply sorted_perm. done. Qed.

(** C6, as amended: with a blank search text, filter mode "All" and sort
    mode "Title", the query returns all the records, ascending by title
    compared without regard to case; and under filter mode "All" the query
    keeps exactly the records whose title or notes contains the search
    text, stripped of surrounding white space, without regard to case. *)
Theorem query_by_title_and_search st l0 :
  lists st !! movies st = Some l0 →
  filter_spinner st = "All" →
  let '(st', r) := _filtered_movies st in
  (strip (search_input st) = "" → sort_spinner st = "Title" →
     elems st' r ≡ₚ l0 ∧
     StronglySorted
       (λ a b, str_le (lower (title (obj st a))) (lower (title (obj st b)))
               = true)
       (elems st' r)) ∧
  (∀ x, x ∈ elems st' r ↔
        x ∈ l0 ∧
        (substring (lower (strip (search_input st))) (lower (title (obj st x)))
         ∨ substring (lower (strip (search_input st)))
             (lower (notes (obj st x))))).
Proof.
  intros Hl Hall. pose proof (filtered_holds st l0 Hl) as Hh.
  apply holds_elems in Hh. destruct (_filtered_movies st) as [st' r].
  simpl in Hh. rewrite Hh.
  assert (∀ x, passes st (obj st x)
               = matches (lower (strip (search_input st))) (obj st x)) as Hp.
  { intros x. unfold passes, flag_ok. rewrite Hall. simpl. apply andb_true_r. }
  split.
  - intros Hblank Htitle. rewrite arranged_title by done.
    rewrite filter_all.
    2:{ intros x. rewrite Hp, Hblank. unfold matches. simpl.
        by rewrite str_in_empty. }
    split; [apply sort_perm|].
    eapply StronglySorted_weaken;
      [|apply sort_ascending; [apply str_lt_asym|apply str_not_lt_trans]].
    intros a b. unfold ascending. by rewrite str_lt_le, negb_false_iff.
  - intros x.
    rewrite arranged_perm, list_elem_of_filter, Hp. unfold matches.
    rewrite orb_True, !Is_true_true, !str_in_spec. tauto.
Qed.

(** C7, as amended: under sort mode "Year" the query returns the records
    that pass, descending on the year compared as text with an empty year
    standing as "0"; so a record with an empty year comes after every
    record whose year is above "0" as text. *)
Theorem query_by_year st l0 :
  lists st !! movies st = Some l0 →
  sort_spinner st = "Year" →
  let '(st', r) := _filtered_movies st in
  elems st' r ≡ₚ filter (λ x, passes st (obj st x)) l0 ∧
  StronglySorted
    (λ a b, str_le (year_key (obj st b)) (year_key (obj st a)) = true)
    (elems st' r) ∧
  (∀ i j a b,
     elems st' r !! i = Some a → elems st' r !! j = Some b →
     str_lt "0" (year (obj st a)) = true → year (obj st b) = "" →
     (i < j)%nat).
Proof.
  intros Hl Hyear. pose proof (filtered_holds st l0 Hl) as Hh.
  apply holds_elems in Hh. destruct (_filtered_movies st) as [st' r].
  simpl in Hh. rewrite Hh, arranged_year by done.
  set (out := sorted str_lt (λ x, year_key (obj st x)) true _).
  assert (StronglySorted
            (descending str_lt (λ x, year_key (obj st x))) out) as Hdesc.
  { apply sorted_descending; [apply str_lt_asym|apply str_not_lt_trans]. }
  split_and!.
  - apply sorted_perm.
  - eapply StronglySorted_weaken; [|exact Hdesc].
    intros a b. unfold descending. by rewrite str_lt_le, negb_false_iff.
  - intros i j a b Hi Hj Ha Hb.
    assert (year_key (obj st b) = "0") as Kb by (unfold year_key; by rewrite Hb).
    assert (year_key (obj st a) = year (obj st a)) as Ka.
    { unfold year_key. by destruct (year (obj st a)). }
    destruct (decide (i < j)%nat) as [|Hge]; [done|]. exfalso.
    destruct (decide (i = j)) as [->|Hne].
    + rewrite Hi in Hj. injection Hj as ->. by rewrite Hb in Ha.
    + assert (descending str_lt (λ x, year_key (obj st x)) b a) as Hba.
      { eapply (StronglySorted_lookup _ out j i); [done..|lia]. }
      unfold descending in Hba. rewrite Ka, Kb in Hba. congruence.
Qed.

(** C8, as amended: for every search text and filter mode, under a sort
    mode of the spinner, the list [_filtered_movies] returns is a new list
    object; the store is as before but for new list objects, so that
    [self.movies] still holds the same records in the same order; and,
    unless the sort mode is "Rating" and a record that passes has a NaN
    rating, the records that tie under the sort key come out in the order
    [self.movies] has them. *)
Theorem query_is_new_and_stable st l0 :
  lists st !! movies st = Some l0 →
  sort_spinner st ∈ ["Title"; "Year"; "Rating"] →
  let '(st', r) := _filtered_movies st in
  lists st !! r = None ∧ r ≠ movies st ∧
  only_new_lists st st' ∧
  elems st' (movies st') = l0 ∧
  elems st' r ≡ₚ filter (λ x, passes st (obj st x)) l0 ∧
  ((sort_spinner st = "Rating" →
    ∀ x, x ∈ l0 → passes st (obj st x) → rating (obj st x) ≠ S754_nan) →
   ∀ k,
     filter (λ x, same_key (sort_spinner st) (obj st x) k) (elems st' r)
     = filter (λ x, same_key (sort_spinner st) (obj st x) k)
         (filter (λ x, passes st (obj st x)) l0)).
Proof.
  intros Hl Hsort. pose proof (filtered_holds st l0 Hl) as Hh.
  pose proof (filtered_new st l0 Hl Hsort) as Hnew.
  pose proof (holds_elems _ _ _ Hh) as He. destruct Hh as [Hgrow _].
  destruct (_filtered_movies st) as [st' r]. simpl in *.
  split_and!; [done|congruence|done|..].
  - destruct Hgrow as [<- Hsub]. unfold elems. simpl.
    eapply lookup_weaken in Hl; [|exact Hsub].
    by rewrite (lookup_total_correct _ _ _ Hl).
  - rewrite He. apply arranged_perm.
  - intros Hnum k. rewrite He. unfold arranged, same_key.
    destruct (sort_spinner st =? "Title")%string.
    { apply (filter_sorted _ _ str_lt_asym str_not_lt_trans).
      intros x y Hx%Is_true_true Hy%Is_true_true.
      apply String.eqb_eq in Hx, Hy. apply str_lt_irrefl. congruence. }
    destruct (sort_spinner st =? "Year")%string.
    { apply (filter_sorted _ _ str_lt_asym str_not_lt_trans).
      intros x y Hx%Is_true_true Hy%Is_true_true.
      apply String.eqb_eq in Hx, Hy. apply str_lt_irrefl. congruence. }
    destruct (sort_spinner st =? "Rating")%string eqn:Hr; [|done].
    apply String.eqb_eq in Hr.
    rewrite (sorted_stable_on float_lt (λ x, rating (obj st x))
               (λ f, f ≠ S754_nan) float_lt_asym float_not_lt_trans true).
    + rewrite filter_reverse, filter_sort, filter_reverse,
        reverse_involutive; [done|].
      intros x y Hx%Is_true_true Hy%Is_true_true.
      by eapply float_eq_not_lt.
    + apply Forall_forall. intros x [Hp Hx]%list_elem_of_filter.
      by apply (Hnum Hr).
Qed.

(** ** Flags *)

Lemma obj_after_save st (h : gmap loc Movie) x :
  obj (_save_movies (set_heap h st)) x = h !!! x.
Proof. reflexivity. Qed.

Lemma toggled_favorite m :
  toggled m "favorite" = Some (set_favorite (negb (favorite m)) m).
Proof. reflexivity. Qed.

Lemma toggled_watched m :
  toggled m "watched"
  = Some (if watched m then set_watched false m
          else set_watchlist false (set_watched true m)).
Proof. unfold toggled. simpl. by destruct (watched m). Qed.

(** Turning [watched] on through [toggle_flag] takes the record off the
    watch list. *)
Lemma toggle_watched_on st movie :
  watched (obj st movie) = false →
  ∃ st', toggle_flag st movie "watched" = Some st' ∧
         watched (obj st' movie) = true ∧ watchlist (obj st' movie) = false.
Proof.
  intros Hw. unfold toggle_flag. rewrite toggled_watched, Hw. simpl.
  eexists. split; [done|].
  by rewrite obj_after_save, lookup_total_insert_eq.
Qed.

(** C10: [toggle_flag(movie, "favorite")] negates [favorite] and leaves
    every other field of the record as it was; [toggle_flag(movie,
    "watched")] on a watched record clears [watched] and leaves every other
    field, [watchlist] included, as it was.  No other record changes. *)
Theorem toggle_flag_changes_one_field st movie :
  let m := obj st movie in
  (∃ st', toggle_flag st movie "favorite" = Some st' ∧
     obj st' movie =
       {| title := title m; year := year m; rating := rating m;
          poster_url := poster_url m; watched := watched m;
          favorite := negb (favorite m); watchlist := watchlist m;
          trailer_url := trailer_url m; local_file := local_file m;
          notes := notes m; created_at := created_at m |} ∧
     ∀ x, x ≠ movie → obj st' x = obj st x) ∧
  (watched m = true →
   ∃ st', toggle_flag st movie "watched" = Some st' ∧
     obj st' movie =
       {| title := title m; year := year m; rating := rating m;
          poster_url := poster_url m; watched := false;
          favorite := favorite m; watchlist := watchlist m;
          trailer_url := trailer_url m; local_file := local_file m;
          notes := notes m; created_at := created_at m |} ∧
     ∀ x, x ≠ movie → obj st' x = obj st x).
Proof.
  intros m. split.
  - unfold toggle_flag. rewrite toggled_favorite. simpl.
    eexists. split; [done|]. split.
    + by rewrite obj_after_save, lookup_total_insert_eq.
    + intros x Hx. by rewrite obj_after_save, lookup_total_insert_ne.
  - intros Hw. unfold toggle_flag. rewrite toggled_watched.
    fold m. rewrite Hw. simpl.
    eexists. split; [done|]. split.
    + by rewrite obj_after_save, lookup_total_insert_eq.
    + intros x Hx. by rewrite obj_after_save, lookup_total_insert_ne.
Qed.

(** ** The movie form *)

Section FormSave.
Context `{Builtins}.

(** [save] never raises. *)
Lemma save_returns st movie now w : ∃ st', save st movie now w = Ok st'.
Proof.
  unfold save. destruct (str_truthy (strip (title_text w))); simpl; [|eauto].
  destruct (parse_rating_ok (rating_text w)) as [r ->]. simpl.
  destruct movie; simpl; eauto.
Qed.

(** The record [save] edits ends as [assign] makes it. *)
Lemma save_edit st movie now w :
  str_truthy (strip (title_text w)) = true →
  ∃ st' r, save st (Some movie) now w = Ok st' ∧
    parse_rating (rating_text w) = Ok r ∧
    obj st' movie = assign w (strip (title_text w)) r (obj st movie).
Proof.
  intros Ht. unfold save. rewrite Ht. simpl.
  destruct (parse_rating_ok (rating_text w)) as [r Hr]. rewrite Hr. simpl.
  eexists _, r. split; [done|]. split; [done|].
  by rewrite obj_after_save, lookup_total_insert_eq.
Qed.

(** The record [save] adds is a new object at the end of the collection,
    as [assign] makes it. *)
Lemma save_add st now w :
  str_truthy (strip (title_text w)) = true →
  let target := fresh (dom (heap st)) in
  ∃ st' r, save st None now w = Ok st' ∧
    parse_rating (rating_text w) = Ok r ∧
    heap st !! target = None ∧
    elems st' (movies st') = (elems st (movies st) ++ [target])%list ∧
    obj st' target
    = assign w (strip (title_text w)) r
        (new_Movie now (strip (title_text w))).
Proof.
  intros Ht target. unfold save. rewrite Ht. simpl.
  destruct (parse_rating_ok (rating_text w)) as [r Hr]. rewrite Hr. simpl.
  eexists _, r. split; [done|]. split; [done|]. split_and!.
  - apply not_elem_of_dom, is_fresh.
  - unfold elems. simpl. by rewrite lookup_total_insert_eq.
  - unfold obj. cbn [heap _save_movies set_disk set_lists set_heap].
    by rewrite !lookup_total_insert_eq.
Qed.

(** Whatever the rating text, the rating [save] assigns is in range. *)
Lemma assign_in_range w t r target :
  in_range (rating (assign w t r target)) = true.
Proof. apply clamp_in_range. Qed.

Lemma save_rating_in_range st movie now w :
  str_truthy (strip (title_text w)) = true →
  ∃ st', save st movie now w = Ok st' ∧
    in_range (rating (obj st' (default (fresh (dom (heap st))) movie)))
    = true.
Proof.
  intros Ht. destruct movie as [movie|]; cbn [default from_option id].
  - destruct (save_edit st movie now w Ht) as (st' & r & Hs & _ & Ho).
    exists st'. split; [done|]. rewrite Ho. apply assign_in_range.
  - destruct (save_add st now w Ht) as (st' & r & Hs & _ & _ & _ & Ho).
    exists st'. split; [done|]. rewrite Ho. apply assign_in_range.
Qed.

(** A record [save] assigns is tidy once its [created_at] is. *)
Lemma assign_tidy w t r target :
  trimmed t → trimmed (created_at target) → created_at target ≠ "" →
  tidy (assign w t r target).
Proof.
  intros Ht Hc Hne. split; simpl; try apply strip_idemp; try done.
  unfold py_max. destruct (float_lt f0 (py_min f10 r)) eqn:Hlt; [|done].
  intros Hz. by rewrite Hz in Hlt.
Qed.
End FormSave.

(** The flags do not untidy a record. *)
Lemma toggled_tidy m field m' : toggled m field = Some m' → tidy m → tidy m'.
Proof.
  unfold toggled, getattr, setattr. intros Hm [? ? ? ? ? ? ? ? ?].
  repeat case_match; simplify_eq/=; try destruct (watched m); by split.
Qed.

(** A store whose records are tidy stays so under [save] and
    [toggle_flag]: the records the application builds and edits are the
    ones [_load_movies] gives back unchanged. *)
Lemma save_keeps_tidy `{Builtins} st movie now w st' :
  trimmed now → now ≠ "" →
  Forall (λ x, is_Some (heap st !! x)) (elems st (movies st)) →
  Forall tidy (records st) →
  save st movie now w = Ok st' → Forall tidy (records st').
Proof.
  intros Hnow Hne Hwf Htidy. unfold save.
  destruct (str_truthy (strip (title_text w))); simpl.
  2:{ intros Hs. by injection Hs as <-. }
  destruct (parse_rating_ok (rating_text w)) as [r ->]. simpl.
  unfold records in *. rewrite Forall_fmap, Forall_forall in Htidy.
  rewrite Forall_forall in Hwf.
  destruct movie as [movie|]; simpl; intros [= <-];
    rewrite Forall_fmap, Forall_forall; unfold elems, obj; simpl.
  - intros x Hx. destruct (decide (x = movie)) as [->|Hxm].
    + rewrite lookup_total_insert_eq.
      destruct (Htidy movie Hx) as [? ? ? ? ? ? ? ? ?].
      apply assign_tidy; [apply strip_idemp|done..].
    + rewrite lookup_total_insert_ne by done. by apply Htidy.
  - rewrite lookup_total_insert_eq. intros x Hx.
    rewrite !lookup_total_insert_eq.
    apply elem_of_app in Hx as [Hx | ->%list_elem_of_singleton].
    + assert (x ≠ fresh (dom (heap st))) as Hxm.
      { intros ->. apply Hwf in Hx. apply elem_of_dom in Hx.
        by apply is_fresh in Hx. }
      rewrite !lookup_total_insert_ne by done. by apply Htidy.
    + rewrite lookup_total_insert_eq.
      apply assign_tidy; [apply strip_idemp|..]; unfold new_Movie; simpl;
        by destruct now.
Qed.

Lemma toggle_flag_keeps_tidy st movie field st' :
  Forall tidy (records st) →
  toggle_flag st movie field = Some st' → Forall tidy (records st').
Proof.
  intros Htidy. unfold toggle_flag.
  destruct (toggled (obj st movie) field) as [m|] eqn:Hm; [|done].
  simpl. intros [= <-]. unfold records in *.
  rewrite Forall_fmap, Forall_forall in Htidy.
  rewrite Forall_fmap, Forall_forall. unfold elems, obj. simpl.
  intros x Hx. destruct (decide (x = movie)) as [->|Hxm].
  - rewrite lookup_total_insert_eq.
    by apply (toggled_tidy _ _ _ Hm), Htidy.
  - rewrite lookup_total_insert_ne by done. by apply Htidy.
Qed.

(** C3 (the code departs from the claim): editing a record through the
    form with both the watched and the watchlist boxes ticked leaves the
    record with [watched] and [watchlist] both true. *)
Theorem save_keeps_watchlist `{Builtins} st movie now w :
  str_truthy (strip (title_text w)) = true →
  watched_active w = true → watchlist_active w = true →
  ∃ st', save st (Some movie) now w = Ok st' ∧
         watched (obj st' movie) = true ∧ watchlist (obj st' movie) = true.
Proof.
  intros Ht Hw Hl.
  destruct (save_edit st movie now w Ht) as (st' & r & Hs & _ & Ho).
  exists st'. split; [done|]. rewrite Ho. simpl. by rewrite Hw, Hl.
Qed.

(** ** Delete *)

Section Delete.
Implicit Types (p : loc → bool) (l : list loc).

Lemma same_self st movie : same st movie movie = true.
Proof. unfold same. by rewrite Nat.eqb_refl. Qed.

Lemma existsb_none p l : Forall (λ e, p e = false) l → existsb p l = false.
Proof. induction 1 as [|e l He _ IH]; simpl; [done|]. by rewrite He. Qed.

Lemma existsb_first p l1 e l2 :
  p e = true → existsb p (l1 ++ e :: l2)%list = true.
Proof.
  intros He. induction l1 as [|x l1 IH]; simpl.
  - by rewrite He.
  - by rewrite IH, orb_true_r.
Qed.

Lemma remove_first p l1 e l2 :
  Forall (λ x, p x = false) l1 → p e = true →
  list_remove p (l1 ++ e :: l2)%list = Ok (l1 ++ l2)%list.
Proof.
  intros Hl1 He. induction Hl1 as [|x l1 Hx _ IH]; simpl.
  - by rewrite He.
  - by rewrite Hx, IH.
Qed.

Lemma remove_found p l : existsb p l = true → ∃ l', list_remove p l = Ok l'.
Proof.
  induction l as [|e l IH]; simpl; [done|].
  destruct (p e); simpl; [eauto|]. intros [l' ->]%IH. simpl. eauto.
Qed.

(** [delete_movie] never raises. *)
Lemma delete_returns st movie : ∃ st', delete_movie st movie = Ok st'.
Proof.
  unfold delete_movie.
  destruct (existsb _ _) eqn:Hin; [|eauto].
  destruct (remove_found _ _ Hin) as [l' ->]. simpl. eauto.
Qed.
End Delete.

(** C9 (the code departs from the claim): [delete_movie] does not find
    the record by identity.  It takes out the first record of the
    collection that is the record passed or equal to it field by field:
    when a different record with equal fields stands before the record
    passed, that one goes and the record passed stays; and only when no
    record of the collection is the record passed or equal to it is the
    store left as it was, nothing written and nothing raised. *)
Theorem delete_movie_removes_first_equal st movie :
  (Forall (λ e, same st movie e = false) (elems st (movies st)) →
   delete_movie st movie = Ok st) ∧
  (∀ l1 other l2 st',
     elems st (movies st) = (l1 ++ other :: l2)%list →
     Forall (λ x, same st movie x = false) l1 →
     same st movie other = true →
     delete_movie st movie = Ok st' →
     elems st' (movies st') = (l1 ++ l2)%list ∧ heap st' = heap st ∧
     (other ≠ movie → movie ∈ l2 → movie ∈ elems st' (movies st'))).
Proof.
  split.
  - intros Hnone. unfold delete_movie. by rewrite existsb_none.
  - intros l1 other l2 st' Hl Hl1 He. unfold delete_movie. rewrite Hl.
    rewrite existsb_first, remove_first by done. simpl.
    intros [= <-].
    assert (elems (_save_movies
                     (set_lists (<[movies st := (l1 ++ l2)%list]> (lists st))
                        st))
              (movies st) = (l1 ++ l2)%list) as Hl'.
    { unfold elems. simpl. apply lookup_total_insert_eq. }
    split_and!; [exact Hl'|done|].
    intros _ Hin. simpl. rewrite Hl', elem_of_app. by right.
Qed.

(** * The theorems at concrete inputs *)

Lemma save_keeps_watchlist_witness :
  let st := store [zeta; alpha] "" "All" "Title" in
  str_truthy (strip (title_text both_ticked)) = true ∧
  watched_active both_ticked = true ∧ watchlist_active both_ticked = true ∧
  ∃ st', save (H := integers_only) st (Some 1%nat) noon both_ticked = Ok st' ∧
         watched (obj st' 1%nat) = true ∧ watchlist (obj st' 1%nat) = true.
Proof.
  intros st. split_and!; [reflexivity..|].
  apply (save_keeps_watchlist st 1%nat noon both_ticked); reflexivity.
Defined.

Lemma zeta_tidy : tidy zeta.
Proof. by split. Defined.

Lemma alpha_tidy : tidy alpha.
Proof. by split. Defined.



Lemma load_is_lenient_witness :
  let st := on_disk (JsonFile (JList mixed)) in
  let missing := store [] "" "All" "Title" in
  let other := on_disk OtherFile in
  let text := on_disk (JsonFile (JStr "not a list")) in
  (disk st !! data_file st = Some (JsonFile (JList mixed)) ∧
   (∀ k d, dicts mixed !! k = Some d →
           ¬ raises (from_dict (H := integers_only) noon d)) ∧
   Ok <$> _load_movies (H := integers_only) (λ _, noon) st
   = imap (λ _ d, from_dict (H := integers_only) noon d) (dicts mixed)) ∧
  (disk missing !! data_file missing = None ∧
   _load_movies (H := integers_only) (λ _, noon) missing = []) ∧
  (disk other !! data_file other = Some OtherFile ∧
   _load_movies (H := integers_only) (λ _, noon) other = []) ∧
  (disk text !! data_file text = Some (JsonFile (JStr "not a list")) ∧
   (∀ data, JStr "not a list" ≠ JList data) ∧
   _load_movies (H := integers_only) (λ _, noon) text = []).
Proof.
  intros st missing other text.
  assert (∀ k d, dicts mixed !! k = Some d →
                 ¬ raises (from_dict (H := integers_only) noon d)) as Hok.
  { intros [|k] d Hd; [|done]. injection Hd as <-. by vm_compute. }
  assert (∀ data, JStr "not a list" ≠ JList data) as Hstr by done.
  destruct (load_is_lenient (H := integers_only) (λ _, noon) st)
    as (_ & _ & _ & Hlist).
  destruct (load_is_lenient (H := integers_only) (λ _, noon) missing)
    as (Hmissing & _).
  destruct (load_is_lenient (H := integers_only) (λ _, noon) other)
    as (_ & Hother & _).
  destruct (load_is_lenient (H := integers_only) (λ _, noon) text)
    as (_ & _ & Htext & _).
  split; [|split; [|split]].
  - split; [reflexivity|]. split; [exact Hok|].
    exact (Hlist mixed eq_refl Hok).
  - split; [reflexivity|]. exact (Hmissing eq_refl).
  - split; [reflexivity|]. exact (Hother eq_refl).
  - split; [reflexivity|]. split; [exact Hstr|].
    exact (Htext (JStr "not a list") eq_refl Hstr).
Defined.

(** C5, as first stated, fails: of the two mappings in the file none is
    recovered, because [from_dict] raises on the second. *)
Lemma one_bad_rating_loses_all :
  length (dicts two_mappings) = 2%nat ∧
  _load_movies (H := integers_only) (λ _, noon)
    (on_disk (JsonFile (JList two_mappings))) = [].
Proof. split; reflexivity. Qed.

Lemma query_by_title_and_search_witness :
  let st := store [zeta; alpha] " zEt " "All" "Title" in
  let blank := store [zeta; alpha] "  " "All" "Title" in
  (lists st !! movies st = Some [1; 2]%nat ∧
   filter_spinner st = "All" ∧
   let '(st', r) := _filtered_movies st in
   ∀ x, x ∈ elems st' r ↔
        x ∈ [1; 2]%nat ∧
        (substring (lower (strip (search_input st)))
           (lower (title (obj st x)))
         ∨ substring (lower (strip (search_input st)))
             (lower (notes (obj st x))))) ∧
  (lists blank !! movies blank = Some [1; 2]%nat ∧
   filter_spinner blank = "All" ∧
   strip (search_input blank) = "" ∧ sort_spinner blank = "Title" ∧
   let '(st', r) := _filtered_movies blank in
   elems st' r ≡ₚ [1; 2]%nat) ∧
  (let accents :=
     store [sample capital_e_acute_a "" "" noon f0;
            sample "ea" "" "" noon f0] e_acute "All" "Title" in
   lists accents !! movies accents = Some [1; 2]%nat ∧
   filter_spinner accents = "All" ∧
   let '(st', r) := _filtered_movies accents in
   1%nat ∈ elems st' r).
Proof.
  intros st blank. split; [|split].
  - split_and!; [reflexivity..|].
    pose proof (query_by_title_and_search st [1; 2]%nat eq_refl eq_refl)
      as Hq.
    destruct (_filtered_movies st) as [st' r]. exact (proj2 Hq).
  - split_and!; [reflexivity..|].
    pose proof (query_by_title_and_search blank [1; 2]%nat eq_refl eq_refl)
      as Hq.
    destruct (_filtered_movies blank) as [st' r].
    exact (proj1 (proj1 Hq eq_refl eq_refl)).
  - intros accents. split_and!; [reflexivity..|].
    pose proof (query_by_title_and_search accents [1; 2]%nat eq_refl
                  eq_refl) as Hq.
    destruct (_filtered_movies accents) as [st' r].
    apply (proj2 Hq). split; [left|]. left.
    apply str_in_spec. reflexivity.
Defined.

(** C6, as first stated, fails: the search text " " is not empty, and the
    query keeps a record whose title and notes hold no space. *)
Lemma blank_search_keeps_all :
  let st := store [sample "abc" "" "" noon f0] " " "All" "Title" in
  let '(st', r) := _filtered_movies st in
  search_input st ≠ "" ∧
  1%nat ∈ elems st' r ∧
  ¬ substring (lower (search_input st)) (lower (title (obj st 1%nat))) ∧
  ¬ substring (lower (search_input st)) (lower (notes (obj st 1%nat))).
Proof.
  intros st. split_and!.
  - discriminate.
  - vm_compute. left.
  - rewrite <-str_in_spec. by vm_compute.
  - rewrite <-str_in_spec. by vm_compute.
Qed.

Lemma query_by_year_witness :
  let st := store [alpha; zeta] "" "All" "Year" in
  lists st !! movies st = Some [1; 2]%nat ∧
  sort_spinner st = "Year" ∧
  let '(st', r) := _filtered_movies st in
  StronglySorted
    (λ a b, str_le (year_key (obj st b)) (year_key (obj st a)) = true)
    (elems st' r).
Proof.
  intros st. split_and!; [reflexivity..|].
  pose proof (query_by_year st [1; 2]%nat eq_refl eq_refl) as Hq.
  destruct (_filtered_movies st) as [st' r]. exact (proj1 (proj2 Hq)).
Defined.

(** C7, as first stated, fails: a record with an empty year comes before a
    record whose year is the text "-1". *)
Lemma empty_year_not_last :
  let st :=
    store [sample "Old" "-1" "" noon f0; sample "Unknown" "" "" noon f0]
      "" "All" "Year" in
  let '(st', r) := _filtered_movies st in
  elems st' r = [2; 1]%nat ∧
  year (obj st 2%nat) = "" ∧ year (obj st 1%nat) = "-1".
Proof. intros st. by vm_compute. Qed.

Lemma query_is_new_and_stable_witness :
  let st := store [zeta; alpha; seen] "" "All" "Rating" in
  lists st !! movies st = Some [1; 2; 3]%nat ∧
  sort_spinner st ∈ ["Title"; "Year"; "Rating"] ∧
  (sort_spinner st = "Rating" →
   ∀ x, x ∈ [1; 2; 3]%nat → passes st (obj st x) →
        rating (obj st x) ≠ S754_nan) ∧
  let '(st', r) := _filtered_movies st in
  lists st !! r = None ∧ elems st' (movies st') = [1; 2; 3]%nat ∧
  filter (λ x, same_key (sort_spinner st) (obj st x) zeta) (elems st' r)
  = filter (λ x, same_key (sort_spinner st) (obj st x) zeta)
      (filter (λ x, passes st (obj st x)) [1; 2; 3]%nat).
Proof.
  intros st.
  assert (sort_spinner st ∈ ["Title"; "Year"; "Rating"]) as Hsort.
  { right. right. left. }
  assert (sort_spinner st = "Rating" →
          ∀ x, x ∈ [1; 2; 3]%nat → passes st (obj st x) →
               rating (obj st x) ≠ S754_nan) as Hnum.
  { intros _ x Hx _. rewrite !elem_of_cons, elem_of_nil in Hx.
    destruct Hx as [-> | [-> | [-> | []]]]; discriminate. }
  split_and!; [reflexivity|exact Hsort|exact Hnum|].
  pose proof (query_is_new_and_stable st [1; 2; 3]%nat eq_refl Hsort) as Hq.
  destruct (_filtered_movies st) as [st' r].
  destruct Hq as (Hnew & _ & _ & Hsame & _ & Hstable).
  exact (conj Hnew (conj Hsame (Hstable Hnum zeta))).
Defined.

(** C8, as first stated, fails: with the ratings 1, 1, NaN, 1, 1, 1 and 2
    under sort mode "Rating" the records come out as 2, 3, 7, 1, 4, 5, 6:
    the records 1 and 2 have equal ratings and change places. *)
Lemma nan_rating_breaks_stability :
  let st := store seven "" "All" "Rating" in
  let '(st', r) := _filtered_movies st in
  elems st (movies st) = [1; 2; 3; 4; 5; 6; 7]%nat ∧
  elems st' r = [2; 3; 7; 1; 4; 5; 6]%nat ∧
  same_key (sort_spinner st) (obj st 2%nat) (obj st 1%nat) = true ∧
  filter (λ x, same_key (sort_spinner st) (obj st x) (obj st 1%nat))
    (elems st' r) = [2; 1; 4; 5; 6]%nat ∧
  filter (λ x, same_key (sort_spinner st) (obj st x) (obj st 1%nat))
    (filter (λ x, passes st (obj st x)) (elems st (movies st)))
  = [1; 2; 4; 5; 6]%nat.
Proof. intros st. by vm_compute. Qed.

Lemma delete_movie_removes_first_equal_witness :
  let st := installed [zeta; alpha; zeta] in
  elems st (movies st) = ([] ++ 1%nat :: [2; 3]%nat)%list ∧
  same st 3%nat 1%nat = true ∧ 1%nat ≠ 3%nat ∧ 3%nat ∈ [2; 3]%nat ∧
  ∃ st', delete_movie st 3%nat = Ok st' ∧
         elems st' (movies st') = [2; 3]%nat ∧
         3%nat ∈ elems st' (movies st').
Proof.
  intros st.
  assert (1%nat ≠ 3%nat) as Hne by discriminate.
  assert (3%nat ∈ [2; 3]%nat) as Hin by (right; left).
  assert (∃ st', delete_movie st 3%nat = Ok st') as [st' Hd].
  { eexists. reflexivity. }
  split_and!; [reflexivity|reflexivity|exact Hne|exact Hin|].
  destruct (delete_movie_removes_first_equal st 3%nat) as [_ Hfirst].
  destruct (Hfirst [] 1%nat [2; 3]%nat st' eq_refl (Forall_nil_2 _)
              eq_refl Hd) as (Hl & _ & Hstays).
  exists st'. split_and!; [exact Hd|exact Hl|exact (Hstays Hne Hin)].
Defined.

Lemma toggle_flag_changes_one_field_witness :
  let st := store [seen; alpha] "" "All" "Title" in
  watched (obj st 1%nat) = true ∧
  ∃ st', toggle_flag st 1%nat "watched" = Some st' ∧
         watched (obj st' 1%nat) = false ∧
         watchlist (obj st' 1%nat) = watchlist (obj st 1%nat).
Proof.
  intros st. split; [reflexivity|].
  destruct (toggle_flag_changes_one_field st 1%nat) as [_ Hw].
  destruct (Hw eq_refl) as (st' & Ht & Ho & _).
  exists st'. split; [exact Ht|]. rewrite Ho. split; reflexivity.
Defined.

(** * Further properties *)

(** ** The record model *)

(** X1: a key missing from the payload gives its field the declared
    default: empty text, rating 0.0, [watched] and [favorite] false,
    [watchlist] true, and the current time as [created_at]; and
    [from_dict] returns a record for a payload without a rating whose
    text fields hold values [str] turns into text. *)
Theorem from_dict_missing_keys `{Builtins} now payload :
  (payload !! "rating" = None → plain_texts payload = true →
   ∃ m, from_dict now payload = Ok m) ∧
  ∀ m, from_dict now payload = Ok m →
    (payload !! "title" = None → title m = "") ∧
    (payload !! "year" = None → year m = "") ∧
    (payload !! "rating" = None → rating m = f0) ∧
    (payload !! "poster_url" = None → poster_url m = "") ∧
    (payload !! "watched" = None → watched m = false) ∧
    (payload !! "favorite" = None → favorite m = false) ∧
    (payload !! "watchlist" = None → watchlist m = true) ∧
    (payload !! "trailer_url" = None → trailer_url m = "") ∧
    (payload !! "local_file" = None → local_file m = "") ∧
    (payload !! "notes" = None → notes m = "") ∧
    (payload !! "created_at" = None → created_at m = now).
Proof.
  split.
  - intros Hr _. unfold from_dict, get. rewrite Hr. simpl. eauto.
  - intros m. unfold from_dict.
    destruct (to_float _) as [r|] eqn:Hr; [|done]. simpl.
    rewrite post_init_eq. intros [= <-]. simpl.
    unfold get in *.
    split_and!; intros Hk; rewrite Hk in *; simpl in *; try done.
    by injection Hr as <-.
Qed.

(** X2: every text field of the record [from_dict] builds is free of
    surrounding white space, and its [created_at] is not empty, the clock
    giving a time stamp. *)
Theorem from_dict_trims `{Builtins} now payload m :
  trimmed now → now ≠ "" → from_dict now payload = Ok m →
  trimmed (title m) ∧ trimmed (year m) ∧ trimmed (poster_url m) ∧
  trimmed (trailer_url m) ∧ trimmed (local_file m) ∧ trimmed (notes m) ∧
  trimmed (created_at m) ∧ created_at m ≠ "".
Proof.
  intros Hnow Hne. unfold from_dict.
  destruct (to_float _) as [r|]; [|done]. simpl.
  rewrite post_init_eq. intros [= <-]. simpl.
  split_and!; try apply strip_idemp.
  - destruct (str_truthy _); [apply strip_idemp|done].
  - by destruct (strip (to_str (get payload "created_at" (JStr "")))).
Qed.

(** X3: the clock is read only for a blank [created_at]: when the payload
    carries a [created_at] that is not blank, [from_dict] gives the same
    result at every time, with that text, stripped, as [created_at]. *)
Theorem from_dict_keeps_created_at `{Builtins} now now' payload :
  strip (to_str (get payload "created_at" (JStr ""))) ≠ "" →
  from_dict now payload = from_dict now' payload ∧
  ∀ m, from_dict now payload = Ok m →
       created_at m = strip (to_str (get payload "created_at" (JStr ""))).
Proof.
  intros Hc. unfold from_dict.
  destruct (to_float _) as [r|]; [|done]. simpl. rewrite !post_init_eq.
  simpl.
  destruct (strip (to_str (get payload "created_at" (JStr "")))) eqn:E;
    [done|]. simpl.
  split; [done|]. by intros m [= <-].
Qed.

(** X4: for a payload whose text fields hold values [str] turns into
    text, [from_dict] raises [TypeError] whenever the rating is a list or
    a mapping that is not empty, and [ValueError] whenever it is text that
    is not empty and that [float] rejects; it returns a record whenever the
    rating is null, a boolean, a float, or empty text, list or mapping. *)
Theorem from_dict_rating_errors `{Builtins} now payload v :
  plain_texts payload = true →
  payload !! "rating" = Some v →
  (∀ x l, v = JList (x :: l) → from_dict now payload = Raise TypeError) ∧
  (∀ d, v = JDict d → is_empty_dict d = false →
        from_dict now payload = Raise TypeError) ∧
  (∀ s, v = JStr s → s ≠ "" → float_of_str s = None →
        from_dict now payload = Raise ValueError) ∧
  (v = JNull ∨ (∃ b, v = JBool b) ∨ (∃ f, v = JFloat f) ∨ v = JStr "" ∨
   v = JList [] ∨ (∃ d, v = JDict d ∧ is_empty_dict d = true) →
   ∃ m, from_dict now payload = Ok m).
Proof.
  intros _ Hv. unfold from_dict, get. rewrite Hv. simpl. unfold py_or.
  split_and!.
  - by intros x l ->.
  - intros d -> Hd. simpl. by rewrite Hd.
  - intros [|c s] -> Hs Hf; [done|]. simpl. by rewrite Hf.
  - intros [->|[[b ->]|[[f ->]|[->|[->|(d & -> & Hd)]]]]]; simpl;
      try rewrite Hd; simpl; eauto.
    + destruct b; simpl; eauto.
    + destruct (float_truthy f); simpl; eauto.
Qed.

(** ** Save and load *)


(** X5: whatever the records in memory, [_save_movies] followed by
    [_load_movies] loses none and adds none and keeps their order; it
    strips the text fields, makes a zero rating the positive zero, stamps
    an empty [created_at], and changes nothing else; and its result is
    tidy, so that writing and reading it again changes nothing more. *)
Theorem save_then_load_normalises `{Builtins} clock st :
  _load_movies clock (_save_movies st)
  = imap (λ i m, reloaded (clock i) m) (records st) ∧
  ((∀ i, trimmed (clock i) ∧ clock i ≠ "") →
   Forall tidy (_load_movies clock (_save_movies st)) ∧
   ∀ now, (λ m, reloaded now m) <$> _load_movies clock (_save_movies st)
          = _load_movies clock (_save_movies st)).
Proof.
  assert (_load_movies clock (_save_movies st)
          = imap (λ i m, reloaded (clock i) m) (records st)) as Heq.
  { unfold _load_movies, _save_movies. simpl.
    rewrite lookup_insert_eq. simpl. by rewrite load_items_asdict_any. }
  split; [exact Heq|]. intros Hclock.
  assert (Forall tidy (_load_movies clock (_save_movies st))) as Htidy.
  { rewrite Heq. apply Forall_forall. intros m' Hm'.
    apply elem_of_lookup_imap in Hm' as (i & m & -> & _).
    by apply reloaded_tidy; apply Hclock. }
  split; [exact Htidy|]. intros now. revert Htidy.
  generalize (_load_movies clock (_save_movies st)). intros ms.
  induction 1 as [|m ms Hm _ IH]; [done|].
  by rewrite fmap_cons, reloaded_fixed, IH.
Qed.

(** ** The query *)

(** Order when [<] is transitive only through the keys of the list. *)
Section SortedOn.
Context {A K : Type} (lt : K → K → bool) (key : A → K) (ok : K → Prop).
Hypothesis asym : ∀ a b, lt a b = true → lt b a = false.
Hypothesis trans :
  ∀ a b c, ok b → lt b a = false → lt c b = false → lt c a = false.

Lemma insort_ascending_on x l :
  Forall (λ y, ok (key y)) l →
  StronglySorted (ascending lt key) l →
  StronglySorted (ascending lt key) (insort lt key x l).
Proof.
  intros Hok Hl. induction Hl as [|y l Hl IH Hy]; simpl;
    [repeat constructor|].
  apply Forall_cons in Hok as [Hoky Hok].
  destruct (lt (key y) (key x)) eqn:Hyx.
  - constructor; [by apply IH|]. rewrite insort_perm. constructor; [|done].
    by apply asym.
  - constructor; [by constructor|]. constructor; [done|].
    eapply Forall_impl; [exact Hy|]. intros z Hz. by apply (trans _ (key y)).
Qed.

Lemma sort_ascending_on l :
  Forall (λ y, ok (key y)) l → StronglySorted (ascending lt key) (sort lt key l).
Proof.
  induction 1 as [|x l Hx Hl IH]; simpl; [constructor|].
  apply insort_ascending_on; [|done]. by rewrite sort_perm.
Qed.

Lemma reverse_descending_on l :
  StronglySorted (ascending lt key) l →
  StronglySorted (descending lt key) (reverse l).
Proof.
  induction 1 as [|y l Hl IH Hy]; [constructor|].
  rewrite reverse_cons. apply StronglySorted_app. split_and!.
  - intros a b Ha ->%list_elem_of_singleton.
    rewrite elem_of_reverse in Ha. rewrite Forall_forall in Hy.
    by apply Hy.
  - done.
  - repeat constructor.
Qed.

Lemma sorted_descending_on l :
  Forall (λ y, ok (key y)) l →
  StronglySorted (descending lt key) (sorted lt key true l).
Proof.
  intros Hok. rewrite (sorted_stable_on lt key ok asym trans true l Hok).
  apply reverse_descending_on, sort_ascending_on.
  by rewrite reverse_Permutation.
Qed.
End SortedOn.

Lemma arranged_rating st l :
  sort_spinner st = "Rating" →
  arranged st l = sorted float_lt (λ x, rating (obj st x)) true l.
Proof. unfold arranged. by intros ->. Qed.

(** X6: whatever the three widgets hold, the list [_filtered_movies]
    returns is a rearrangement of the records of the collection that pass
    the search; under the filter modes "Watched", "Favorite" and
    "Watchlist" it holds exactly those of them whose flag of that name is
    set; it never holds more records than the collection. *)
Theorem query_filter_modes st l0 :
  lists st !! movies st = Some l0 →
  let '(st', r) := _filtered_movies st in
  let found x := matches (lower (strip (search_input st))) (obj st x) in
  elems st' r ≡ₚ filter (λ x, passes st (obj st x)) l0 ∧
  (length (elems st' r) ≤ length l0)%nat ∧
  (filter_spinner st = "Watched" →
   ∀ x, x ∈ elems st' r ↔ x ∈ l0 ∧ found x ∧ watched (obj st x)) ∧
  (filter_spinner st = "Favorite" →
   ∀ x, x ∈ elems st' r ↔ x ∈ l0 ∧ found x ∧ favorite (obj st x)) ∧
  (filter_spinner st = "Watchlist" →
   ∀ x, x ∈ elems st' r ↔ x ∈ l0 ∧ found x ∧ watchlist (obj st x)).
Proof.
  intros Hl. pose proof (filtered_holds st l0 Hl) as Hh.
  apply holds_elems in Hh. destruct (_filtered_movies st) as [st' r].
  simpl in Hh. rewrite Hh. clear Hh.
  assert (∀ (flag : Movie → bool) x,
    (∀ m, flag_ok (filter_spinner st) m = flag m) →
    x ∈ arranged st (filter (λ x, passes st (obj st x)) l0) ↔
    x ∈ l0 ∧ matches (lower (strip (search_input st))) (obj st x)
    ∧ flag (obj st x)) as Hmode.
  { intros flag x Hflag. rewrite arranged_perm, list_elem_of_filter.
    unfold passes. rewrite Hflag, andb_True. tauto. }
  split_and!.
  - apply arranged_perm.
  - rewrite arranged_perm. apply length_filter.
  - intros Hf x. apply Hmode. intros m. unfold flag_ok. by rewrite Hf.
  - intros Hf x. apply Hmode. intros m. unfold flag_ok. by rewrite Hf.
  - intros Hf x. apply Hmode. intros m. unfold flag_ok. by rewrite Hf.
Qed.

(** X7: under sort mode "Rating", when no record that passes has a NaN
    rating, the list returned is in descending order of rating: the rating
    of each record is at most that of every record before it. *)
Theorem query_by_rating st l0 :
  lists st !! movies st = Some l0 →
  sort_spinner st = "Rating" →
  (∀ x, x ∈ l0 → passes st (obj st x) → rating (obj st x) ≠ S754_nan) →
  let '(st', r) := _filtered_movies st in
  StronglySorted
    (λ a b, float_le (rating (obj st b)) (rating (obj st a)) = true)
    (elems st' r).
Proof.
  intros Hl Hsort Hnum. pose proof (filtered_holds st l0 Hl) as Hh.
  apply holds_elems in Hh. destruct (_filtered_movies st) as [st' r].
  simpl in Hh. rewrite Hh, arranged_rating by done.
  set (chosen := filter (λ x, passes st (obj st x)) l0).
  assert (Forall (λ x, rating (obj st x) ≠ S754_nan) chosen) as Hok.
  { apply Forall_forall. intros x [Hp Hx]%list_elem_of_filter.
    by apply Hnum. }
  pose proof (sorted_descending_on float_lt (λ x, rating (obj st x))
                (λ k, k ≠ S754_nan) float_lt_asym float_not_lt_trans
                chosen Hok) as Hdesc.
  assert (Forall (λ x, rating (obj st x) ≠ S754_nan)
            (sorted float_lt (λ x, rating (obj st x)) true chosen)) as Hout.
  { by rewrite sorted_perm. }
  revert Hdesc Hout.
  generalize (sorted float_lt (λ x, rating (obj st x)) true chosen).
  intros out Hdesc. induction Hdesc as [|a out Hd IH Ha]; [constructor|].
  intros [Hna Hout]%Forall_cons. constructor; [by apply IH|].
  rewrite Forall_forall in Ha, Hout. apply Forall_forall. intros b Hb.
  apply float_not_lt_le; [done|by apply Hout|]. by apply Ha.
Qed.

(** ** Mutations and the data file *)

Section Persist.
Context `{Builtins}.

(** A file holding the dump of tidy records loads as those records. *)
Lemma load_of_dump clock st ms :
  disk st !! data_file st
  = Some (JsonFile (JList ((λ m, JDict (asdict m)) <$> ms))) →
  Forall tidy ms → _load_movies clock st = ms.
Proof.
  intros Hd Hms. unfold _load_movies. rewrite Hd. simpl.
  by rewrite load_items_asdict.
Qed.

Lemma saved_file st :
  disk (_save_movies st) !! data_file (_save_movies st)
  = Some (JsonFile (JList ((λ m, JDict (asdict m)) <$> records st))).
Proof. unfold _save_movies. simpl. apply lookup_insert_eq. Qed.

Lemma records_saved st : records (_save_movies st) = records st.
Proof. reflexivity. Qed.

Lemma load_saved clock st :
  Forall tidy (records st) →
  _load_movies clock (_save_movies st) = records (_save_movies st).
Proof.
  intros Hms.
  exact (load_of_dump clock (_save_movies st) (records st) (saved_file st) Hms).
Qed.

Lemma save_edit_keeps_tidy st movie now w st' :
  Forall tidy (records st) →
  save st (Some movie) now w = Ok st' → Forall tidy (records st').
Proof.
  intros Htidy. unfold save.
  destruct (str_truthy (strip (title_text w))); simpl.
  2:{ intros Hs. by injection Hs as <-. }
  destruct (parse_rating_ok (rating_text w)) as [r ->]. simpl.
  unfold records in *. rewrite Forall_fmap, Forall_forall in Htidy.
  intros [= <-]. rewrite Forall_fmap, Forall_forall.
  unfold elems, obj. simpl.
  intros x Hx. destruct (decide (x = movie)) as [->|Hxm].
  - rewrite lookup_total_insert_eq.
    destruct (Htidy movie Hx) as [? ? ? ? ? ? ? ? ?].
    apply assign_tidy; [apply strip_idemp|done..].
  - rewrite lookup_total_insert_ne by done. by apply Htidy.
Qed.
End Persist.

Lemma toggle_flag_favorite st movie :
  toggle_flag st movie "favorite"
  = Some (_save_movies
            (set_heap (<[movie := set_favorite (negb (favorite (obj st movie)))
                                    (obj st movie)]> (heap st)) st)).
Proof. unfold toggle_flag. by rewrite toggled_favorite. Qed.

Lemma toggle_flag_watched st movie :
  toggle_flag st movie "watched"
  = Some (_save_movies
            (set_heap (<[movie := if watched (obj st movie)
                                  then set_watched false (obj st movie)
                                  else set_watchlist false
                                         (set_watched true (obj st movie))]>
                         (heap st)) st)).
Proof. unfold toggle_flag. by rewrite toggled_watched. Qed.

(** X8: toggling "favorite" twice gives the record back as it was;
    toggling "watched" twice gives back the record with [watched] as it
    was and every other field unchanged, except that [watchlist] is now
    false. *)
Theorem toggle_flag_twice st movie :
  (∃ st1 st2,
     toggle_flag st movie "favorite" = Some st1 ∧
     toggle_flag st1 movie "favorite" = Some st2 ∧
     obj st2 movie = obj st movie) ∧
  (∃ st1 st2,
     toggle_flag st movie "watched" = Some st1 ∧
     toggle_flag st1 movie "watched" = Some st2 ∧
     obj st2 movie = set_watchlist false (obj st movie)).
Proof.
  split.
  - eexists _, _. split; [apply toggle_flag_favorite|].
    split; [apply toggle_flag_favorite|].
    rewrite !obj_after_save, !lookup_total_insert_eq.
    destruct (obj st movie) as [? ? ? ? ? [] ? ? ? ? ?]; reflexivity.
  - eexists _, _. split; [apply toggle_flag_watched|].
    split; [apply toggle_flag_watched|].
    rewrite !obj_after_save, !lookup_total_insert_eq.
    destruct (obj st movie) as [? ? ? ? [] ? ? ? ? ? ?]; reflexivity.
Qed.

(** X9: [toggle_flag] leaves the collection with the same records in the
    same order and writes it out: in a store of tidy records, loading the
    data file afterwards gives the records as they are in memory. *)
Theorem toggle_flag_persists `{Builtins} clock st movie field st' :
  Forall tidy (records st) → toggle_flag st movie field = Some st' →
  elems st' (movies st') = elems st (movies st) ∧
  _load_movies clock st' = records st'.
Proof.
  intros Htidy Ht.
  pose proof (toggle_flag_keeps_tidy _ _ _ _ Htidy Ht) as Htidy'.
  unfold toggle_flag in Ht.
  destruct (toggled (obj st movie) field) as [m|]; [|done].
  simpl in Ht. injection Ht as <-. split; [done|].
  by apply load_saved.
Qed.

(** X10: when Save on the form for a new movie, with a title that is not
    blank, returns, it has made one new record and put it at the end of
    the collection, with the stripped title and the current time as
    [created_at]; no other record has changed; and in a store of tidy
    records the data file then loads as the records in memory. *)
Theorem save_appends `{Builtins} clock st now w st' :
  str_truthy (strip (title_text w)) = true →
  save st None now w = Ok st' →
  ∃ target,
    heap st !! target = None ∧
    elems st' (movies st') = (elems st (movies st) ++ [target])%list ∧
    (∀ x, x ≠ target → obj st' x = obj st x) ∧
    title (obj st' target) = strip (title_text w) ∧
    created_at (obj st' target) = now ∧
    (trimmed now → now ≠ "" →
     Forall (λ x, is_Some (heap st !! x)) (elems st (movies st)) →
     Forall tidy (records st) → _load_movies clock st' = records st').
Proof.
  intros Ht Hsave.
  destruct (save_add st now w Ht) as (st'' & r & Hs & Hr & Hnew & Hl & Ho).
  assert (st'' = st') as -> by congruence.
  exists (fresh (dom (heap st))). split_and!; try done.
  - intros x Hx. revert Hs. unfold save. rewrite Ht, Hr. simpl.
    intros [= <-]. unfold obj. simpl.
    by rewrite !lookup_total_insert_ne.
  - by rewrite Ho.
  - rewrite Ho. unfold new_Movie. simpl. by destruct now.
  - intros Hnow Hne Hwf Htidy.
    pose proof (save_keeps_tidy _ _ _ _ _ Hnow Hne Hwf Htidy Hs) as Htidy'.
    revert Hs Htidy'. unfold save. rewrite Ht, Hr. simpl.
    intros [= <-] Htidy'. by apply load_saved.
Qed.

(** X11: when Save on the form of an existing movie, with a title that is
    not blank, returns, it has changed that record in place: the
    collection keeps its records and their order, the record keeps its
    [created_at], no other record has changed; and in a store of tidy
    records the data file then loads as the records in memory. *)
Theorem save_edits_in_place `{Builtins} clock st movie now w st' :
  str_truthy (strip (title_text w)) = true →
  save st (Some movie) now w = Ok st' →
  elems st' (movies st') = elems st (movies st) ∧
  created_at (obj st' movie) = created_at (obj st movie) ∧
  (∀ x, x ≠ movie → obj st' x = obj st x) ∧
  (Forall tidy (records st) → _load_movies clock st' = records st').
Proof.
  intros Ht Hsave.
  destruct (save_edit st movie now w Ht) as (st'' & r & Hs & Hr & Ho).
  assert (st'' = st') as -> by congruence.
  assert (st' = _save_movies
            (set_heap (<[movie := assign w (strip (title_text w)) r
                                    (obj st movie)]> (heap st)) st)) as Hst.
  { revert Hs. unfold save. rewrite Ht, Hr. simpl. by intros [= <-]. }
  split_and!.
  - by rewrite Hst.
  - by rewrite Ho.
  - intros x Hx. rewrite Hst, obj_after_save.
    by rewrite lookup_total_insert_ne.
  - intros Htidy.
    pose proof (save_edit_keeps_tidy _ _ _ _ _ Htidy Hs) as Htidy'.
    rewrite Hst in *. by apply load_saved.
Qed.

Lemma list_remove_sublist p l l' :
  list_remove p l = Ok l' → l' `sublist_of` l ∧ S (length l') = length l.
Proof.
  revert l'. induction l as [|e l IH]; intros l'; simpl; [done|].
  destruct (p e).
  - intros [= <-]. split; [by apply sublist_cons|done].
  - destruct (list_remove p l) as [l''|] eqn:Hr; [|done]. simpl.
    intros [= <-]. destruct (IH l'' eq_refl) as [Hsub Hlen].
    split; [by apply sublist_skip|]. simpl. by rewrite Hlen.
Qed.

(** X12: when [delete_movie] finds a record to remove, the collection
    loses exactly one record, the others keep their order, no record
    changes; and in a store of tidy records the data file then loads as the
    records in memory. *)
Theorem delete_movie_removes_one `{Builtins} clock st movie st' :
  existsb (same st movie) (elems st (movies st)) = true →
  delete_movie st movie = Ok st' →
  S (length (elems st' (movies st'))) = length (elems st (movies st)) ∧
  elems st' (movies st') `sublist_of` elems st (movies st) ∧
  heap st' = heap st ∧
  (Forall tidy (records st) → _load_movies clock st' = records st').
Proof.
  intros Hin. unfold delete_movie. rewrite Hin.
  destruct (list_remove _ _) as [l|] eqn:Hl; [|done]. simpl.
  intros [= <-]. apply list_remove_sublist in Hl as [Hsub Hlen].
  assert (elems (_save_movies (set_lists (<[movies st := l]> (lists st)) st))
            (movies st) = l) as He.
  { unfold elems. simpl. apply lookup_total_insert_eq. }
  simpl. rewrite He. split_and!; try done.
  intros Htidy. apply load_saved.
  unfold records in *. simpl. fold (elems (set_lists (<[movies st := l]>
    (lists st)) st) (movies st)).
  unfold elems at 1. simpl. rewrite lookup_total_insert_eq.
  rewrite Forall_fmap in *. rewrite Forall_forall in *.
  intros x Hx. apply Htidy. by eapply elem_of_sublist.
Qed.

(** X13: with a title that is empty or only white space, Save on the form
    does nothing: no record is added or changed and nothing is written;
    so it is after Clear, which empties the title. *)
Theorem save_needs_a_title `{Builtins} st movie now w :
  (strip (title_text w) = "" → save st movie now w = Ok st) ∧
  save st movie now (clear w) = Ok st.
Proof.
  split; [|reflexivity]. intros Ht. unfold save. by rewrite Ht.
Qed.

(** ** Settings, themes and start-up *)

(** The colour 0.08 is the float Python reads from that literal. *)
Lemma hundredths_8 :
  hundredths 8 = JFloat (S754_finite false 5764607523034235 (-56)).
Proof. reflexivity. Qed.

Lemma load_settings_app `{Builtins} s :
  app (_load_settings s) = app s ∧
  settings_file (_load_settings s) = settings_file s ∧
  theme (_load_settings s) = theme s.
Proof.
  unfold _load_settings. repeat case_match; done.
Qed.

(** X14: [_load_settings] changes nothing when the settings file is
    missing, is not JSON, or holds something other than an object; from an
    object it takes [dark_mode] by truthiness, true when the key is
    missing, and takes the API key, as text and stripped, only when no key
    is set yet: a key that is already set, as one from the environment is,
    is never replaced by the file's. *)
Theorem load_settings_is_lenient `{Builtins} s :
  (disk (app s) !! settings_file s = None → _load_settings s = s) ∧
  (disk (app s) !! settings_file s = Some OtherFile → _load_settings s = s) ∧
  (∀ doc, disk (app s) !! settings_file s = Some (JsonFile doc) →
     (∀ data, doc ≠ JDict data) → _load_settings s = s) ∧
  (tmdb_api_key s ≠ "" → tmdb_api_key (_load_settings s) = tmdb_api_key s) ∧
  (∀ data, disk (app s) !! settings_file s = Some (JsonFile (JDict data)) →
     dark_mode (_load_settings s)
     = truthy (default (JBool true) (data !! "dark_mode")) ∧
     (tmdb_api_key s = "" →
      tmdb_api_key (_load_settings s)
      = strip (to_str (default (JStr "") (data !! "tmdb_api_key"))))).
Proof.
  unfold _load_settings. split_and!.
  - by intros ->.
  - by intros ->.
  - intros doc -> Hdoc. simpl. destruct doc; try done. by destruct (Hdoc d).
  - intros Hkey. destruct (tmdb_api_key s) eqn:Hk; [done|].
    repeat case_match; simpl in *; try done; by rewrite ?Hk in *.
  - intros data ->. simpl. split.
    + by destruct (str_truthy (tmdb_api_key s)).
    + by intros ->.
Qed.

(** X15: reading the settings right after writing them changes nothing:
    the mode and the API key written are the ones read back. *)
Theorem save_settings_then_load `{Builtins} s :
  _load_settings (_save_settings s) = _save_settings s.
Proof.
  unfold _load_settings, _save_settings. simpl.
  rewrite lookup_insert_eq. simpl. unfold get. simpl.
  destruct s as [a f k b t]. simpl.
  destruct k; reflexivity.
Qed.

(** X16: [toggle_theme] negates [dark_mode], sets the colours of the new
    mode and writes the mode to the settings file; the background of the
    two modes differs and the colour of the button text is never changed;
    two toggles give back the mode, with its colours. *)
Theorem toggle_theme_flips s :
  let s1 := toggle_theme s in
  let s2 := toggle_theme s1 in
  dark_mode s1 = negb (dark_mode s) ∧
  disk (app s1) !! settings_file s1
  = Some (JsonFile (JDict (<["dark_mode" := JBool (negb (dark_mode s))]>
                             {[ "tmdb_api_key" := JStr (tmdb_api_key s) ]}))) ∧
  theme_bg (theme s1) ≠ theme_bg (theme s2) ∧
  theme_button_text (theme s1) = theme_button_text (theme s) ∧
  dark_mode s2 = dark_mode s ∧
  theme s2 = theme (_apply_theme s) ∧
  tmdb_api_key s2 = tmdb_api_key s.
Proof.
  intros s1 s2. unfold s2, s1, toggle_theme, _save_settings, _apply_theme.
  destruct s as [a f k [] t]; simpl; split_and!; try done;
    try apply lookup_insert_eq.
Qed.

Lemma append_same_prefix p a b : p ++ a = p ++ b → a = b.
Proof.
  induction p as [|c p IH]; [done|]. rewrite !append_cons.
  intros [= Hp]. by apply IH.
Qed.

Lemma join_names_apart directory a b : a ≠ b → join directory a ≠ join directory b.
Proof.
  intros Hab. unfold join.
  destruct (negb (str_truthy directory) || ends_with_slash directory).
  - by intros ?%append_same_prefix.
  - intros ?%append_same_prefix. by simplify_eq.
Qed.

Lemma new_objs_spec ms st :
  heap st ⊆ heap (new_objs ms st).1 ∧
  lists (new_objs ms st).1 = lists st ∧
  disk (new_objs ms st).1 = disk st ∧
  data_file (new_objs ms st).1 = data_file st ∧
  ((λ l, heap (new_objs ms st).1 !! l) <$> (new_objs ms st).2) = Some <$> ms.
Proof.
  revert st. induction ms as [|m ms IH]; intros st; simpl; [done|].
  set (st1 := set_heap (<[fresh (dom (heap st)) := m]> (heap st)) st).
  specialize (IH st1). destruct (new_objs ms st1) as [st2 ls]. simpl in *.
  destruct IH as (Hsub & Hlists & Hdisk & Hfile & Hls).
  assert (heap st ⊆ heap st1) as Hsub1.
  { apply insert_subseteq, not_elem_of_dom, is_fresh. }
  split_and!; try done.
  - by etrans.
  - f_equal; [|done]. eapply lookup_weaken; [|exact Hsub].
    apply lookup_insert_eq.
Qed.

Lemma lookups_total (h : gmap loc Movie) (ls : list loc) (ms : list Movie) :
  (λ l, h !! l) <$> ls = Some <$> ms → (λ l, h !!! l) <$> ls = ms.
Proof.
  revert ms. induction ls as [|l ls IH]; intros [|m ms]; try done.
  rewrite !fmap_cons. intros Heq.
  apply (f_equal head) in Heq as Hl. apply (f_equal tail) in Heq as Hls.
  simpl in Hl, Hls. f_equal; [|by apply IH].
  apply lookup_total_correct. congruence.
Qed.

Section Restart.
Context `{Builtins}.

Lemma build_files user_data_dir env_key clock d :
  let s := build user_data_dir env_key clock d in
  data_file (app s) = join user_data_dir "movies.json" ∧
  settings_file s = join user_data_dir "settings.json".
Proof.
  unfold build. simpl.
  set (s0 := {| app := _ |}).
  destruct (load_settings_app s0) as (Happ & Hfile & _).
  assert (app (_apply_theme (_load_settings s0)) = app s0) as Ha.
  { unfold _apply_theme. by destruct (dark_mode _). }
  assert (settings_file (_apply_theme (_load_settings s0))
          = settings_file s0) as Hs.
  { unfold _apply_theme. by destruct (dark_mode _). }
  pose proof (new_objs_spec
    (_load_movies clock (app (_apply_theme (_load_settings s0))))
    (app (_apply_theme (_load_settings s0)))) as (_ & _ & _ & Hdf & _).
  destruct (new_objs _ _) as [a ls]. simpl in *.
  split; [by rewrite Hdf, Ha|by rewrite Hs].
Qed.

Lemma build_records user_data_dir env_key clock d :
  let s := build user_data_dir env_key clock d in
  records (app s)
  = _load_movies clock
      {| heap := ∅; lists := ∅; movies := 0%nat;
         data_file := join user_data_dir "movies.json"; disk := d;
         search_input := ""; filter_spinner := "All";
         sort_spinner := "Title" |}.
Proof.
  unfold build. simpl.
  set (s0 := {| app := _ |}).
  destruct (load_settings_app s0) as (Happ & _ & _).
  assert (app (_apply_theme (_load_settings s0)) = app s0) as Ha.
  { unfold _apply_theme. destruct (dark_mode _); simpl; by rewrite Happ. }
  rewrite Ha.
  pose proof (new_objs_spec (_load_movies clock (app s0)) (app s0))
    as (_ & _ & _ & _ & Hls).
  destruct (new_objs _ _) as [a ls]. simpl fst in Hls. simpl snd in Hls.
  apply lookups_total in Hls.
  unfold records, elems, obj. simpl. rewrite lookup_total_insert_eq.
  exact Hls.
Qed.
Lemma build_settings user_data_dir env_key clock d :
  let s := build user_data_dir env_key clock d in
  let loaded := settings_of (d !! join user_data_dir "settings.json") in
  dark_mode s
  = match loaded with
    | Some data => truthy (get data "dark_mode" (JBool true))
    | None => true
    end ∧
  tmdb_api_key s
  = match loaded with
    | Some data =>
        if str_truthy (strip env_key) then strip env_key
        else strip (to_str (get data "tmdb_api_key" (JStr "")))
    | None => strip env_key
    end ∧
  theme (_apply_theme s) = theme s.
Proof.
  unfold build, settings_of. simpl.
  set (s0 := {| app := _ |}).
  destruct (new_objs _ _) as [a ls]. simpl.
  unfold _load_settings. simpl.
  destruct (d !! join user_data_dir "settings.json") as [[doc|]|]; simpl;
    [|done..].
  destruct doc; try done. simpl.
  destruct (str_truthy (strip env_key)); simpl;
    by destruct (truthy (get _ "dark_mode" _)).
Qed.
End Restart.

(** X17: the catalogue and the settings are never the same file: after
    [build] the data file and the settings file differ, and whenever they
    differ, writing the settings changes nothing in what [_load_movies]
    returns. *)
Theorem settings_leave_movies_alone `{Builtins} :
  (∀ user_data_dir env_key clock d,
     let s := build user_data_dir env_key clock d in
     data_file (app s) ≠ settings_file s) ∧
  (∀ s clock, data_file (app s) ≠ settings_file s →
     _load_movies clock (app (_save_settings s))
     = _load_movies clock (app s) ∧
     _load_movies clock (app (toggle_theme s)) = _load_movies clock (app s)).
Proof.
  split.
  - intros dir env clock d s. unfold s.
    destruct (build_files dir env clock d) as [Hd Hs].
    cbv zeta in Hd, Hs. rewrite Hd, Hs.
    by apply join_names_apart.
  - intros s clock Hne. unfold toggle_theme, _save_settings, _load_movies.
    split.
    + simpl. by rewrite lookup_insert_ne.
    + assert (app (_apply_theme (set_dark_mode (negb (dark_mode s)) s))
              = app s) as Ha.
      { unfold _apply_theme. by destruct (dark_mode _). }
      assert (settings_file
                (_apply_theme (set_dark_mode (negb (dark_mode s)) s))
              = settings_file s) as Hs.
      { unfold _apply_theme. by destruct (dark_mode _). }
      simpl. rewrite Ha, Hs. by rewrite lookup_insert_ne.
Qed.

(** X18: a new start brings the catalogue back: when the data file in the
    application's directory was written by [_save_movies] from tidy
    records, [build] fills [self.movies] with records equal to them, in
    the same order. *)
Theorem restart_restores_movies `{Builtins} user_data_dir env_key clock st :
  data_file st = join user_data_dir "movies.json" →
  Forall tidy (records st) →
  records (app (build user_data_dir env_key clock (disk (_save_movies st))))
  = records st.
Proof.
  intros Hfile Htidy. rewrite build_records.
  apply load_of_dump; [|done]. simpl. rewrite <-Hfile.
  apply lookup_insert_eq.
Qed.

(** X19: a new start brings the settings back: when the settings file in
    the application's directory was written by [_save_settings], [build]
    takes its mode and the colours of that mode; it takes the file's API
    key, stripped, unless the environment gives one, which then wins. *)
Theorem restart_restores_settings `{Builtins} user_data_dir env_key clock s :
  settings_file s = join user_data_dir "settings.json" →
  let s' :=
    build user_data_dir env_key clock (disk (app (_save_settings s))) in
  dark_mode s' = dark_mode s ∧
  theme_bg (theme s') = theme_bg (theme (_apply_theme s)) ∧
  theme_text (theme s') = theme_text (theme (_apply_theme s)) ∧
  tmdb_api_key s'
  = if str_truthy (strip env_key) then strip env_key
    else strip (tmdb_api_key s).
Proof.
  intros Hfile s'.
  destruct (build_settings user_data_dir env_key clock
              (disk (app (_save_settings s)))) as (Hmode & Hkey & Htheme).
  fold s' in Hmode, Hkey, Htheme.
  unfold settings_of in Hmode, Hkey. simpl in Hmode, Hkey.
  rewrite <-Hfile, lookup_insert_eq in Hmode, Hkey. simpl in Hmode, Hkey.
  unfold get in Hmode, Hkey. simpl in Hmode, Hkey.
  rewrite <-Htheme. unfold _apply_theme. rewrite Hmode.
  split_and!; try done; by destruct (dark_mode s).
Qed.

(** X27: the key typed into the API key dialog is stored stripped and
    written to the settings file together with the mode, which it leaves
    alone, as it does the colours; after a new start the application has
    that key again, unless the environment gives one. *)
Theorem save_key_is_kept `{Builtins} user_data_dir env_key clock text s :
  settings_file s = join user_data_dir "settings.json" →
  let s1 := save_key text s in
  let s' := build user_data_dir env_key clock (disk (app s1)) in
  tmdb_api_key s1 = strip text ∧
  dark_mode s1 = dark_mode s ∧
  theme s1 = theme s ∧
  dark_mode s' = dark_mode s ∧
  tmdb_api_key s'
  = if str_truthy (strip env_key) then strip env_key else strip text.
Proof.
  intros Hfile s1 s'.
  destruct (build_settings user_data_dir env_key clock (disk (app s1)))
    as (Hmode & Hkey & _).
  fold s' in Hmode, Hkey.
  unfold settings_of, s1, save_key in Hmode, Hkey. simpl in Hmode, Hkey.
  rewrite <-Hfile, lookup_insert_eq in Hmode, Hkey. simpl in Hmode, Hkey.
  unfold get in Hmode, Hkey. simpl in Hmode, Hkey.
  split_and!; try done. rewrite Hkey.
  destruct (str_truthy (strip env_key)); [done|]. apply strip_idemp.
Qed.

(** X28: a start with no settings file, or one that is not JSON, gives
    dark mode, the dark colours and the key of the environment, stripped;
    a start with no data file, or one that is not JSON, gives an empty
    collection.  Whatever the disk holds, the colours [build] leaves are
    those of the mode it leaves. *)
Theorem first_start `{Builtins} user_data_dir env_key clock d :
  let s := build user_data_dir env_key clock d in
  (d !! join user_data_dir "settings.json" = None ∨
   d !! join user_data_dir "settings.json" = Some OtherFile →
   dark_mode s = true ∧ tmdb_api_key s = strip env_key ∧
   theme_bg (theme s) = [hundredths 8; hundredths 9; hundredths 11; JInt 1]) ∧
  (d !! join user_data_dir "movies.json" = None ∨
   d !! join user_data_dir "movies.json" = Some OtherFile →
   records (app s) = []) ∧
  theme (_apply_theme s) = theme s.
Proof.
  intros s.
  destruct (build_settings user_data_dir env_key clock d)
    as (Hmode & Hkey & Htheme).
  fold s in Hmode, Hkey, Htheme. unfold settings_of in Hmode, Hkey.
  split_and!.
  - intros Hfile. rewrite <-Htheme. unfold _apply_theme.
    rewrite Hmode, Hkey. by destruct Hfile as [-> | ->].
  - intros Hfile. unfold s. rewrite build_records. unfold _load_movies.
    simpl. by destruct Hfile as [-> | ->].
  - done.
Qed.

(** ** Trailers *)














(** ** The movie form *)

Lemma float_compare_eq a b :
  SFcompare a b = Some Eq → a ≠ S754_zero true → b ≠ S754_zero true → a = b.
Proof.
  destruct a as [[]| | |[] ma ea], b as [[]| | |[] mb eb]; simpl; try done.
  all: try (by destruct s); try (by destruct s, s0).
  all: change (PosDef.Pos.compare_cont Eq) with Pos.compare in *.
  all: destruct (ea ?= eb)%Z eqn:He; try done.
  all: apply Z.compare_eq in He; subst.
  all: intros [= Hm] _ _.
  - f_equal. apply Pos.compare_eq.
    by destruct (ma ?= mb)%positive.
  - f_equal. apply Pos.compare_eq.
    by destruct (ma ?= mb)%positive.
Qed.

(** Clamping leaves a rating of the interval as it is. *)
Lemma clamp_fixed r :
  in_range r = true → r ≠ S754_zero true → py_max f0 (py_min f10 r) = r.
Proof.
  unfold in_range, py_max, py_min, float_le, float_lt, SFleb, SFltb.
  intros [Hlo Hhi]%andb_true_iff Hz.
  destruct (SFcompare r f10) as [[]|] eqn:Hc10; try done.
  - apply float_compare_eq in Hc10; [|done..]. by subst r.
  - destruct (SFcompare f0 r) as [[]|] eqn:Hc0; try done.
    by apply float_compare_eq in Hc0.
Qed.

Lemma clamp_above x : float_lt f10 x = true → py_max f0 (py_min f10 x) = f10.
Proof.
  intros Hhi. unfold py_min. by rewrite (float_lt_asym _ _ Hhi).
Qed.

Lemma clamp_below x : float_lt x f0 = true → py_max f0 (py_min f10 x) = f0.
Proof.
  intros Hlo. unfold py_max, py_min.
  assert (float_lt x f10 = true) as ->.
  { by destruct x as [[]|[]| |[] mx ex]. }
  by rewrite (float_lt_asym _ _ Hlo).
Qed.

Section FormRoundTrip.
Context `{Builtins}.

End FormRoundTrip.



(** X22: the form for a new movie starts as [clear] leaves a form, every
    text input empty and only the watch list box ticked; typing nothing
    but a title into it and pressing Save adds, at the end of the
    collection, the record [Movie(title=...)] builds from the stripped
    title: rating 0.0, on the watch list, stamped with the current time. *)
Theorem add_form_title_only `{Builtins} st now0 now t w :
  open_movie_form None now0 = clear w ∧
  (strip t ≠ "" →
   ∃ st', save st None now (typed_title t (open_movie_form None now0))
          = Ok st' ∧
     elems st' (movies st')
     = (elems st (movies st) ++ [fresh (dom (heap st))])%list ∧
     obj st' (fresh (dom (heap st))) = new_Movie now (strip t)).
Proof.
  split; [done|]. intros Ht.
  destruct (save_add st now (typed_title t (open_movie_form None now0)))
    as (st' & r & Hs & Hp & _ & He & Ho).
  { simpl. by destruct (strip t). }
  exists st'. split_and!; [done..|].
  rewrite Ho. cbn in Hp. injection Hp as <-. reflexivity.
Qed.

(** X23: the rating [save] stores: [0.0] when the rating input is blank or
    holds text [float] rejects; otherwise the number read, moved into
    [0.0, 10.0]: kept when it lies inside, [10.0] when it is above and also
    when it is not a number, [0.0] when it is below.  *)
Theorem save_rating_rule `{Builtins} st movie now w :
  strip (title_text w) ≠ "" →
  ∃ st', save st movie now w = Ok st' ∧
    let r := rating (obj st' (default (fresh (dom (heap st))) movie)) in
    let text := strip (rating_text w) in
    in_range r = true ∧
    (text = "" → r = f0) ∧
    (float_of_str text = None → r = f0) ∧
    (∀ x, text ≠ "" → float_of_str text = Some x →
       r = py_max f0 (py_min f10 x) ∧
       (in_range x = true → x ≠ S754_zero true → r = x) ∧
       (float_lt f10 x = true → r = f10) ∧
       (x = S754_nan → r = f10) ∧
       (float_lt x f0 = true → r = f0)).
Proof.
  intros Ht.
  assert (str_truthy (strip (title_text w)) = true) as Ht'.
  { by destruct (strip (title_text w)). }
  assert (∃ st' r0, save st movie now w = Ok st' ∧
            parse_rating (rating_text w) = Ok r0 ∧
            rating (obj st' (default (fresh (dom (heap st))) movie))
            = py_max f0 (py_min f10 r0)) as (st' & r0 & Hs & Hp & Hr).
  { destruct movie as [movie|]; cbn [default from_option id].
    - destruct (save_edit st movie now w Ht') as (st' & r & Hs & Hp & Ho).
      exists st', r. by rewrite Ho.
    - destruct (save_add st now w Ht') as (st' & r & Hs & Hp & _ & _ & Ho).
      exists st', r. by rewrite Ho. }
  exists st'. split; [done|]. cbv zeta. rewrite Hr.
  split; [apply clamp_in_range|].
  unfold parse_rating, py_or in Hp. cbn [truthy] in Hp.
  split_and!.
  - intros Hb. rewrite Hb in Hp. cbn in Hp. by injection Hp as <-.
  - intros Hn. destruct (strip (rating_text w)); cbn in Hp.
    + by injection Hp as <-.
    + rewrite Hn in Hp. by injection Hp as <-.
  - intros x Hne Hx. destruct (strip (rating_text w)) eqn:Htext; [done|].
    cbn in Hp. rewrite Hx in Hp. injection Hp as <-.
    split_and!; [done|apply clamp_fixed|apply clamp_above| |apply clamp_below].
    by intros ->.
Qed.

(** X24: [toggle_flag(movie, "watched")] on a record not yet watched
    marks it watched and takes it off the watch list; its other fields,
    the other records and the order of the collection stay as they are. *)
Theorem toggle_flag_marks_watched st movie :
  watched (obj st movie) = false →
  ∃ st', toggle_flag st movie "watched" = Some st' ∧
    obj st' movie = set_watchlist false (set_watched true (obj st movie)) ∧
    (∀ other, other ≠ movie → obj st' other = obj st other) ∧
    elems st' (movies st') = elems st (movies st).
Proof.
  intros Hw. unfold toggle_flag. rewrite toggled_watched, Hw. simpl.
  eexists. split; [done|]. split_and!.
  - by rewrite obj_after_save, lookup_total_insert_eq.
  - intros other Hne. by rewrite obj_after_save, lookup_total_insert_ne.
  - done.
Qed.

(** ** The TMDB lookup *)

Lemma substring_length n s : (String.length (String.substring 0 n s) ≤ n)%nat.
Proof.
  revert s. induction n as [|n IH]; intros [|c s]; simpl; try lia.
  specialize (IH s). lia.
Qed.

Section TmdbFacts.
Context `{Builtins}.
Variable format_1f : float → string.

Lemma worker_apply response movie_year movie_rating poster_url_ :
  worker response = Apply movie_year movie_rating poster_url_ →
  (String.length movie_year ≤ 4)%nat ∧
  (poster_url_ = "" ∨
   ∃ path, poster_url_ = "https://image.tmdb.org/t/p/w500" ++ path).
Proof.
  unfold worker. intros Hw.
  repeat case_match; simplify_eq; split;
    first [apply substring_length | simpl; lia | by left | right; by eexists].
Qed.

Lemma request_title api_key w title_ params :
  request api_key w = Some (title_, params) →
  title_ = strip (title_text w) ∧ title_ ≠ "" ∧ api_key ≠ "".
Proof.
  unfold request. intros Hr.
  destruct (strip (title_text w)) eqn:Ht; [done|].
  destruct api_key; [done|]. simpl in Hr. by simplify_eq.
Qed.
End TmdbFacts.

(** X25: whatever TMDB answers, [fetch_tmdb] leaves the title, the local
    file, the notes and the three check boxes of the form as they are, and
    a trailer address that is not blank; the year is left or replaced by a
    text of one to four characters, the poster address is left or replaced
    by one under [https://image.tmdb.org/t/p/w500], and a blank trailer
    address is left or replaced by the YouTube search for the title the
    form had when the button was pressed. *)
Theorem fetch_tmdb_keeps_user_input `{Builtins} format_1f api_key w respond
    later :
  let after := fetch_tmdb format_1f api_key w respond later in
  title_text after = title_text later ∧
  local_file_text after = local_file_text later ∧
  notes_text after = notes_text later ∧
  watched_active after = watched_active later ∧
  favorite_active after = favorite_active later ∧
  watchlist_active after = watchlist_active later ∧
  (strip (trailer_url_text later) ≠ "" →
   trailer_url_text after = trailer_url_text later) ∧
  (year_text after = year_text later ∨
   (1 ≤ String.length (year_text after) ≤ 4)%nat) ∧
  (poster_url_text after = poster_url_text later ∨
   ∃ path, poster_url_text after
           = "https://image.tmdb.org/t/p/w500" ++ path) ∧
  (trailer_url_text after = trailer_url_text later ∨
   trailer_url_text after = trailer_search (strip (title_text w))).
Proof.
  intros after. unfold after, fetch_tmdb.
  destruct (request api_key w) as [[title_ params]|] eqn:Hreq;
    [|by split_and!; try done; left].
  apply request_title in Hreq as (-> & _ & _).
  destruct (worker (respond params)) as [|y r p|] eqn:Hw;
    [by split_and!; try done; left| |by split_and!; try done; left].
  apply worker_apply in Hw as [Hy Hp]. unfold apply. simpl.
  split_and!; try done.
  - intros Hne. by destruct (strip (trailer_url_text later)).
  - destruct y as [|c y]; [by left|right]. simpl in *. lia.
  - destruct p as [|c p]; [by left|right]. simpl.
    destruct Hp as [?|Hp]; [done|exact Hp].
  - destruct (str_truthy (strip (trailer_url_text later))); [by left|by right].
Qed.

(** X26: [fetch_tmdb] leaves the whole form as it is when the title is
    blank, when no API key is set, when the request fails, when the answer
    is not an object, has no [results] or an empty list of them, when the
    first result is not an object, and when its [vote_average] is text
    [float] rejects.  A first result with no poster, no release date and no
    vote changes nothing but a blank trailer address. *)
Theorem fetch_tmdb_leaves_form `{Builtins} format_1f api_key w respond later :
  let after := fetch_tmdb format_1f api_key w respond later in
  (strip (title_text w) = "" → after = later) ∧
  (api_key = "" → after = later) ∧
  ((∀ params, respond params = None) → after = later) ∧
  (∀ body, (∀ params, respond params = Some body) →
     ((∀ d, body ≠ JDict d) → after = later) ∧
     (∀ d, body = JDict d →
        (d !! "results" = None → after = later) ∧
        (d !! "results" = Some (JList []) → after = later) ∧
        (∀ first rest, d !! "results" = Some (JList (first :: rest)) →
           ((∀ best, first ≠ JDict best) → after = later) ∧
           (∀ best text, first = JDict best →
              best !! "vote_average" = Some (JStr text) → text ≠ "" →
              float_of_str text = None → after = later) ∧
           (first = JDict ∅ → strip (trailer_url_text later) ≠ "" →
            after = later)))).
Proof.
  intros after. unfold after, fetch_tmdb, request.
  split_and!.
  - by intros ->.
  - intros ->. by destruct (str_truthy (strip (title_text w))).
  - intros Hnone. repeat case_match; simplify_eq; try done.
    all: by rewrite Hnone in *.
  - intros body Hbody. split.
    + intros Hnd. repeat case_match; simplify_eq; try done.
      all: rewrite Hbody in *; unfold worker in *.
      all: destruct body; try done; by destruct (Hnd d).
    + intros d ->. split_and!.
      * intros Hres. repeat case_match; simplify_eq; try done.
        all: rewrite Hbody in *; unfold worker, get in *.
        all: by rewrite Hres in *.
      * intros Hres. repeat case_match; simplify_eq; try done.
        all: rewrite Hbody in *; unfold worker, get in *.
        all: by rewrite Hres in *.
      * intros first rest Hres. split_and!.
        -- intros Hnd.
           destruct (negb (str_truthy (strip (title_text w)))); [done|].
           destruct (negb (str_truthy api_key)); [done|].
           rewrite Hbody. unfold worker, get. rewrite Hres. simpl.
           destruct first; try done. by destruct (Hnd d0).
        -- intros best text -> Hvote Hne Hrej.
           destruct (negb (str_truthy (strip (title_text w)))); [done|].
           destruct (negb (str_truthy api_key)); [done|].
           rewrite Hbody. unfold worker, get. rewrite Hres. simpl.
           rewrite Hvote. simpl. unfold py_or at 2. simpl.
           destruct text; [done|]. simpl. by rewrite Hrej.
        -- intros -> Htrailer.
           destruct (negb (str_truthy (strip (title_text w)))); [done|].
           destruct (negb (str_truthy api_key)); [done|].
           rewrite Hbody. unfold worker, get. rewrite Hres. simpl.
           rewrite !lookup_empty. simpl. unfold apply. simpl.
           destruct (strip (trailer_url_text later)); [done|]. simpl.
           by destruct later.
Qed.

(** ** The properties at work on sample data *)

Lemma two_tidy : Forall tidy [zeta; alpha].
Proof.
  constructor; [apply zeta_tidy|]. constructor; [apply alpha_tidy|].
  constructor.
Defined.

Lemma from_dict_missing_keys_witness :
  bare !! "rating" = None ∧ bare !! "watchlist" = None ∧
  plain_texts bare = true ∧
  from_dict (H := integers_only) noon bare = Ok heat ∧
  rating heat = f0 ∧ watchlist heat = true.
Proof.
  destruct (from_dict_missing_keys (H := integers_only) noon bare)
    as [Hret Hm].
  destruct (Hret eq_refl eq_refl) as [m Hok].
  assert (m = heat) as -> by (by injection Hok as <-).
  destruct (Hm heat Hok) as (_ & _ & Hr & _ & _ & _ & Hw & _).
  split_and!; [reflexivity..|exact Hok|exact (Hr eq_refl)|exact (Hw eq_refl)].
Defined.

Lemma from_dict_trims_witness :
  trimmed noon ∧ noon ≠ "" ∧
  from_dict (H := integers_only) noon bare = Ok heat ∧
  trimmed (title heat) ∧ created_at heat ≠ "".
Proof.
  assert (noon ≠ "") as Hne by discriminate.
  pose proof (from_dict_trims (H := integers_only) noon bare heat
                eq_refl Hne eq_refl) as Ht.
  split_and!; [reflexivity|exact Hne|reflexivity| |].
  - exact (proj1 Ht).
  - exact (proj2 (proj2 (proj2 (proj2 (proj2 (proj2 (proj2 Ht))))))).
Defined.

Lemma from_dict_keeps_created_at_witness :
  strip (to_str (H := integers_only) (get stamped "created_at" (JStr "")))
  ≠ "" ∧
  from_dict (H := integers_only) "" stamped
  = from_dict (H := integers_only) noon stamped.
Proof.
  assert (strip (to_str (H := integers_only)
                   (get stamped "created_at" (JStr ""))) ≠ "") as Hne.
  { vm_compute. discriminate. }
  split; [exact Hne|].
  exact (proj1 (from_dict_keeps_created_at (H := integers_only) "" noon
                  stamped Hne)).
Defined.

Lemma from_dict_rating_errors_witness :
  plain_texts listed = true ∧
  listed !! "rating" = Some (JList [JInt 1]) ∧
  from_dict (H := integers_only) noon listed = Raise TypeError.
Proof.
  split_and!; [reflexivity..|].
  destruct (from_dict_rating_errors (H := integers_only) noon listed
              (JList [JInt 1]) eq_refl eq_refl) as (Hlist & _).
  exact (Hlist (JInt 1) [] eq_refl).
Defined.

Lemma save_then_load_normalises_witness :
  let st := installed [sample " x" "" "" noon f0;
                       sample x_nbsp "" "" noon f0] in
  let clock := λ _ : nat, noon in
  (∀ i, trimmed (clock i) ∧ clock i ≠ "") ∧
  Forall tidy (_load_movies (H := integers_only) clock (_save_movies st)) ∧
  title <$> _load_movies (H := integers_only) clock (_save_movies st)
  = ["x"; "x"].
Proof.
  intros st clock.
  assert (∀ i, trimmed (clock i) ∧ clock i ≠ "") as Hc.
  { intros i. split; [reflexivity|discriminate]. }
  split; [exact Hc|].
  destruct (save_then_load_normalises (H := integers_only) clock st)
    as [Heq Hn].
  split; [exact (proj1 (Hn Hc))|]. rewrite Heq. reflexivity.
Defined.

Lemma query_filter_modes_witness :
  let st := store [zeta; seen] "" "Watched" "Title" in
  lists st !! movies st = Some [1; 2]%nat ∧
  filter_spinner st = "Watched" ∧
  let '(st', r) := _filtered_movies st in
  ∀ x, x ∈ elems st' r ↔
       x ∈ [1; 2]%nat ∧
       matches (lower (strip (search_input st))) (obj st x) ∧
       watched (obj st x).
Proof.
  intros st. split_and!; [reflexivity..|].
  pose proof (query_filter_modes st [1; 2]%nat eq_refl) as Hq.
  destruct (_filtered_movies st) as [st' r].
  destruct Hq as (_ & _ & Hw & _). exact (Hw eq_refl).
Defined.

Lemma query_by_rating_witness :
  let st := store [zeta; alpha] "" "All" "Rating" in
  lists st !! movies st = Some [1; 2]%nat ∧
  sort_spinner st = "Rating" ∧
  (∀ x, x ∈ [1; 2]%nat → passes st (obj st x) →
        rating (obj st x) ≠ S754_nan) ∧
  let '(st', r) := _filtered_movies st in
  StronglySorted
    (λ a b, float_le (rating (obj st b)) (rating (obj st a)) = true)
    (elems st' r).
Proof.
  intros st.
  assert (∀ x, x ∈ [1; 2]%nat → passes st (obj st x) →
               rating (obj st x) ≠ S754_nan) as Hnan.
  { intros x Hx _. rewrite !elem_of_cons, elem_of_nil in Hx.
    destruct Hx as [-> | [-> | []]]; discriminate. }
  split_and!; [reflexivity..|exact Hnan|].
  pose proof (query_by_rating st [1; 2]%nat eq_refl eq_refl Hnan) as Hq.
  destruct (_filtered_movies st) as [st' r]. exact Hq.
Defined.

Lemma toggle_flag_persists_witness :
  let st := store [zeta; alpha] "" "All" "Title" in
  Forall tidy (records st) ∧
  ∃ st', toggle_flag st 1%nat "favorite" = Some st' ∧
    elems st' (movies st') = elems st (movies st) ∧
    _load_movies (H := integers_only) (λ _, noon) st' = records st'.
Proof.
  intros st. split; [exact two_tidy|].
  assert (∃ st', toggle_flag st 1%nat "favorite" = Some st') as [st' Ht].
  { eexists. reflexivity. }
  exists st'. split; [exact Ht|].
  exact (toggle_flag_persists (H := integers_only) (λ _, noon) st 1%nat
           "favorite" st' two_tidy Ht).
Defined.

Lemma save_appends_witness :
  let st := installed [zeta; alpha] in
  str_truthy (strip (title_text new_heat)) = true ∧
  ∃ st' target,
    save (H := integers_only) st None noon new_heat = Ok st' ∧
    elems st' (movies st') = (elems st (movies st) ++ [target])%list ∧
    title (obj st' target) = "Heat" ∧
    _load_movies (H := integers_only) (λ _, noon) st' = records st'.
Proof.
  intros st. split; [reflexivity|].
  assert (∃ st', save (H := integers_only) st None noon new_heat = Ok st')
    as [st' Hs].
  { eexists. reflexivity. }
  destruct (save_appends (H := integers_only) (λ _, noon) st noon new_heat
              st' eq_refl Hs) as (target & _ & He & _ & Ht & _ & Hl).
  exists st', target. split_and!; [exact Hs|exact He|exact Ht|].
  apply Hl; [reflexivity|discriminate| |exact two_tidy].
  repeat constructor; by eexists.
Defined.

Lemma save_edits_in_place_witness :
  let st := installed [zeta; alpha] in
  str_truthy (strip (title_text new_heat)) = true ∧
  ∃ st',
    save (H := integers_only) st (Some 2%nat) noon new_heat = Ok st' ∧
    elems st' (movies st') = elems st (movies st) ∧
    created_at (obj st' 2%nat) = created_at (obj st 2%nat) ∧
    _load_movies (H := integers_only) (λ _, noon) st' = records st'.
Proof.
  intros st. split; [reflexivity|].
  assert (∃ st',
            save (H := integers_only) st (Some 2%nat) noon new_heat = Ok st')
    as [st' Hs].
  { eexists. reflexivity. }
  destruct (save_edits_in_place (H := integers_only) (λ _, noon) st 2%nat
              noon new_heat st' eq_refl Hs) as (He & Hc & _ & Hl).
  exists st'. split_and!; [exact Hs|exact He|exact Hc|].
  exact (Hl two_tidy).
Defined.

Lemma delete_movie_removes_one_witness :
  let st := store [zeta; alpha] "" "All" "Title" in
  existsb (same st 1%nat) (elems st (movies st)) = true ∧
  ∃ st', delete_movie st 1%nat = Ok st' ∧
    S (length (elems st' (movies st'))) = length (elems st (movies st)) ∧
    _load_movies (H := integers_only) (λ _, noon) st' = records st'.
Proof.
  intros st. split; [reflexivity|].
  assert (∃ st', delete_movie st 1%nat = Ok st') as [st' Hd].
  { eexists. reflexivity. }
  exists st'. split; [exact Hd|].
  destruct (delete_movie_removes_one (H := integers_only) (λ _, noon) st
              1%nat st' eq_refl Hd) as (Hn & _ & _ & Hl).
  split; [exact Hn|exact (Hl two_tidy)].
Defined.

Lemma save_needs_a_title_witness :
  let st := store [zeta; alpha] "" "All" "Title" in
  let w := typed_title "   " new_heat in
  strip (title_text w) = "" ∧
  save (H := integers_only) st None noon w = Ok st.
Proof.
  intros st w. split; [reflexivity|].
  exact (proj1 (save_needs_a_title (H := integers_only) st None noon w)
           eq_refl).
Defined.

Lemma load_settings_is_lenient_witness :
  let s := started ∅ in
  let s2 :=
    set_app (set_disk {[ "/data/settings.json" := light_settings ]} (app s)) s
  in
  (disk (app s) !! settings_file s = None ∧
   _load_settings (H := integers_only) s = s) ∧
  (tmdb_api_key s2 = "" ∧
   dark_mode (_load_settings (H := integers_only) s2) = false ∧
   tmdb_api_key (_load_settings (H := integers_only) s2) = "k2").
Proof.
  intros s s2. split.
  - split; [reflexivity|].
    exact (proj1 (load_settings_is_lenient (H := integers_only) s) eq_refl).
  - destruct (load_settings_is_lenient (H := integers_only) s2)
      as (_ & _ & _ & _ & Hobj).
    destruct (Hobj _ eq_refl) as [Hmode Hkey].
    split_and!; [reflexivity|exact Hmode|exact (Hkey eq_refl)].
Defined.

Lemma settings_leave_movies_alone_witness :
  let s := set_app (installed [zeta; alpha]) (started ∅) in
  data_file (app s) ≠ settings_file s ∧
  _load_movies (H := integers_only) (λ _, noon) (app (toggle_theme s))
  = _load_movies (H := integers_only) (λ _, noon) (app s).
Proof.
  intros s.
  assert (data_file (app s) ≠ settings_file s) as Hne.
  { vm_compute. discriminate. }
  split; [exact Hne|].
  destruct (settings_leave_movies_alone (H := integers_only)) as [_ Hs].
  exact (proj2 (Hs s (λ _, noon) Hne)).
Defined.

Lemma restart_restores_movies_witness :
  let st := installed [zeta; alpha] in
  data_file st = join "/data" "movies.json" ∧
  Forall tidy (records st) ∧
  records (app (build (H := integers_only) "/data" "" (λ _, noon)
                  (disk (_save_movies st))))
  = records st.
Proof.
  intros st. split_and!; [reflexivity|exact two_tidy|].
  exact (restart_restores_movies (H := integers_only) "/data" "" (λ _, noon) st
           eq_refl two_tidy).
Defined.

Lemma restart_restores_settings_witness :
  let s := toggle_theme (started ∅) in
  let s' :=
    build (H := integers_only) "/data" "" (λ _, noon)
      (disk (app (_save_settings s))) in
  settings_file s = join "/data" "settings.json" ∧
  dark_mode s = false ∧ dark_mode s' = false.
Proof.
  intros s s'. split_and!; [reflexivity..|].
  exact (proj1 (restart_restores_settings (H := integers_only) "/data" ""
                  (λ _, noon) s eq_refl)).
Defined.

Lemma save_key_is_kept_witness :
  let s := started ∅ in
  let s1 := save_key " k9 " s in
  settings_file s = join "/data" "settings.json" ∧
  tmdb_api_key s1 = "k9" ∧
  tmdb_api_key (build (H := integers_only) "/data" "" (λ _, noon)
                  (disk (app s1))) = "k9".
Proof.
  intros s s1. split; [reflexivity|].
  destruct (save_key_is_kept (H := integers_only) "/data" "" (λ _, noon)
              " k9 " s eq_refl) as (Hk & _ & _ & _ & Hb).
  split; [exact Hk|exact Hb].
Defined.

Lemma first_start_witness :
  let s := started ∅ in
  ((∅ : gmap string file) !! join "/data" "settings.json" = None) ∧
  dark_mode s = true ∧ tmdb_api_key s = "" ∧
  ((∅ : gmap string file) !! join "/data" "movies.json" = None) ∧
  records (app s) = [].
Proof.
  intros s.
  destruct (first_start (H := integers_only) "/data" "" (λ _, noon) ∅)
    as (Hs & Hm & _).
  destruct (Hs (or_introl eq_refl)) as (Hmode & Hkey & _).
  split_and!; [reflexivity|exact Hmode|exact Hkey|reflexivity|].
  exact (Hm (or_introl eq_refl)).
Defined.



Lemma add_form_title_only_witness :
  let st := store [zeta; alpha] "" "All" "Title" in
  strip " Heat " ≠ "" ∧
  ∃ st', save (H := integers_only) st None noon
           (typed_title " Heat "
              (open_movie_form (H := integers_only) None noon)) = Ok st' ∧
    obj st' (fresh (dom (heap st))) = heat.
Proof.
  intros st.
  assert (strip " Heat " ≠ "") as Hne by (vm_compute; discriminate).
  split; [exact Hne|].
  destruct (add_form_title_only (H := integers_only) st noon noon " Heat "
              new_heat) as [_ Ha].
  destruct (Ha Hne) as (st' & Hs & _ & Ho).
  exists st'. split; [exact Hs|exact Ho].
Defined.

Lemma save_rating_rule_witness :
  let st := store [zeta; alpha] "" "All" "Title" in
  strip (title_text new_heat) ≠ "" ∧
  float_of_str (Builtins := integers_only) (strip (rating_text new_heat))
  = Some f11 ∧
  float_lt f10 f11 = true ∧
  ∃ st', save (H := integers_only) st None noon new_heat = Ok st' ∧
    rating (obj st' (fresh (dom (heap st)))) = f10.
Proof.
  intros st.
  assert (strip (title_text new_heat) ≠ "") as Hne.
  { vm_compute. discriminate. }
  assert (strip (rating_text new_heat) ≠ "") as Hr.
  { vm_compute. discriminate. }
  split_and!; [exact Hne|reflexivity..|].
  destruct (save_rating_rule (H := integers_only) st None noon new_heat Hne)
    as (st' & Hs & _ & _ & _ & Hx).
  destruct (Hx f11 Hr eq_refl) as (_ & _ & Hhi & _).
  exists st'. split; [exact Hs|exact (Hhi eq_refl)].
Defined.

Lemma toggle_flag_marks_watched_witness :
  let st := store [zeta; alpha] "" "All" "Title" in
  watched (obj st 1%nat) = false ∧
  ∃ st', toggle_flag st 1%nat "watched" = Some st' ∧ obj st' 1%nat = seen.
Proof.
  intros st. split; [reflexivity|].
  destruct (toggle_flag_marks_watched st 1%nat eq_refl)
    as (st' & Ht & Ho & _).
  exists st'. split; [exact Ht|exact Ho].
Defined.

Lemma fetch_tmdb_keeps_user_input_witness :
  let after :=
    fetch_tmdb (H := integers_only) repr_float "k1" new_heat
      (λ _, Some a_match) with_trailer in
  strip (trailer_url_text with_trailer) ≠ "" ∧
  trailer_url_text after = "https://youtu.be/x" ∧
  title_text after = " Heat ".
Proof.
  intros after.
  assert (strip (trailer_url_text with_trailer) ≠ "") as Hne.
  { vm_compute. discriminate. }
  destruct (fetch_tmdb_keeps_user_input (H := integers_only) repr_float
              "k1" new_heat (λ _, Some a_match) with_trailer)
    as (Ht & _ & _ & _ & _ & _ & Hu & _).
  split_and!; [exact Hne|exact (Hu Hne)|exact Ht].
Defined.

Lemma fetch_tmdb_leaves_form_witness :
  let after :=
    fetch_tmdb (H := integers_only) repr_float "k1" new_heat
      (λ _, Some a_bad_vote) new_heat in
  float_of_str (Builtins := integers_only) "abc" = None ∧ after = new_heat.
Proof.
  intros after. split; [reflexivity|].
  destruct (fetch_tmdb_leaves_form (H := integers_only) repr_float "k1"
              new_heat (λ _, Some a_bad_vote) new_heat)
    as (_ & _ & _ & Hbody).
  destruct (Hbody a_bad_vote (λ _, eq_refl)) as [_ Hd].
  destruct (Hd _ eq_refl) as (_ & _ & Hfirst).
  destruct (Hfirst _ [] eq_refl) as (_ & Hvote & _).
  assert ("abc" ≠ "") as Hne by discriminate.
  exact (Hvote _ "abc" eq_refl eq_refl Hne eq_refl).
Defined.
